(** * genezio-rag: indexing pipeline and hybrid retrieval

    A shallow embedding of [hybrid_retrieval.py], [main.py] and
    [main_fastapi.py], with the theorems that settle the claims of the
    specification against them.

    Python values are embedded as follows.
    - A [str] is a Rocq [string]; its characters stand for the code points
      U+0000..U+00FF.
    - A payload (a JSON object) is a [gmap string PyVal].
    - A [dict] whose iteration order the code relies on is an association
      list in insertion order.
    - A [set] is the list of its distinct elements; the order in which Python
      iterates it is a parameter ([set_iter]), since it depends on the hash
      seed of the process.
    - A raised exception is the [Raise] case of [Result]; code that talks to
      the vector store or writes to the log runs in the monad [M]. *)

From Stdlib Require Import QArith.
From stdpp Require Import gmap strings list fin_maps sorting.

Open Scope string_scope.
#[local] Set Warnings "-abstract-large-number".

(** ** Python values and exceptions *)

Module Py.

(** The JSON values a payload holds, as far as the code distinguishes them. *)
Inductive PyVal : Type :=
| PNone
| PStr (s : string)
| PInt (z : Z).

#[global] Instance PyVal_eq_dec : EqDecision PyVal.
Proof. solve_decision. Defined.

(** Instances of Python's [Exception]: what [except Exception] catches. *)
Inductive Exn : Type :=
| HTTPException (status_code : Z) (detail : string)
| KeyError (key : string)
| TypeError (msg : string)
| AttributeError (msg : string)
| ValueError (msg : string)
| IndexError (msg : string)
| OSError (msg : string)
| StoreError (msg : string)
| ModelError (msg : string).

#[global] Instance Exn_eq_dec : EqDecision Exn.
Proof. solve_decision. Defined.

Fixpoint digits_of_pos_fuel (fuel : nat) (n : N) (acc : string) : string :=
  match fuel with
  | O => acc
  | S fuel' =>
      let d := Ascii.ascii_of_N (48 + N.modulo n 10) in
      let acc' := String d acc in
      if N.eqb (N.div n 10) 0 then acc' else digits_of_pos_fuel fuel' (N.div n 10) acc'
  end.

(** [str(n)] for a non-negative integer. *)
Definition str_of_N (n : N) : string :=
  digits_of_pos_fuel (S (N.to_nat (N.log2 n))) n "".

(** [str(z)] for an integer. *)
Definition str_of_Z (z : Z) : string :=
  match z with
  | Z0 => "0"
  | Zpos p => str_of_N (Npos p)
  | Zneg p => "-" +:+ str_of_N (Npos p)
  end.

(** [str(e)]: the message of the exception; an [HTTPException] prints as
    its status code, a colon and its detail. *)
Definition str_exn (e : Exn) : string :=
  match e with
  | HTTPException c d => str_of_Z c +:+ ": " +:+ d
  | KeyError k => "'" +:+ k +:+ "'"
  | TypeError m | AttributeError m | ValueError m | IndexError m
  | OSError m | StoreError m | ModelError m => m
  end.

(** The outcome of an expression that may raise. *)
Inductive Result (A : Type) : Type :=
| Ok (a : A)
| Raise (e : Exn).
Arguments Ok {A} a.
Arguments Raise {A} e.

Definition rbind {A B : Type} (r : Result A) (k : A -> Result B) : Result B :=
  match r with
  | Ok a => k a
  | Raise e => Raise e
  end.

(** [[f(x) for x in l]] for an [f] that may raise: the first exception wins. *)
Fixpoint rmap {A B : Type} (f : A -> Result B) (l : list A) : Result (list B) :=
  match l with
  | [] => Ok []
  | x :: l' => rbind (f x) (fun y => rbind (rmap f l') (fun ys => Ok (y :: ys)))
  end.

(** [len(s)], [s[:n]] and [s.endswith(suffix)]. *)
Definition len (s : string) : nat := String.length s.

Fixpoint slice_to (n : nat) (s : string) : string :=
  match n, s with
  | S n', String c s' => String c (slice_to n' s')
  | _, _ => ""
  end.

Fixpoint slice_from (n : nat) (s : string) : string :=
  match n, s with
  | S n', String _ s' => slice_from n' s'
  | _, _ => s
  end.

Definition endswith (s suffix : string) : bool :=
  Nat.leb (len suffix) (len s)
  && String.eqb (slice_from (len s - len suffix) s) suffix.

(** [c.lower()] on U+0000..U+00FF: the letters A-Z, and the Latin-1 capitals
    U+00C0..U+00DE except the multiplication sign U+00D7. *)
Definition lower_char (c : Ascii.ascii) : Ascii.ascii :=
  let n := Ascii.nat_of_ascii c in
  if (Nat.leb 65 n && Nat.leb n 90)
     || (Nat.leb 192 n && Nat.leb n 222 && negb (Nat.eqb n 215))
  then Ascii.ascii_of_nat (n + 32) else c.

Fixpoint lower (s : string) : string :=
  match s with
  | EmptyString => EmptyString
  | String c s' => String (lower_char c) (lower s')
  end.

(** A character for which [str.isdigit] holds: 0-9, and the superscripts
    U+00B2, U+00B3 and U+00B9, which are digits but not decimal ones. *)
Definition is_decimal_char (c : Ascii.ascii) : bool :=
  let n := Ascii.nat_of_ascii c in Nat.leb 48 n && Nat.leb n 57.

Definition is_digit_char (c : Ascii.ascii) : bool :=
  let n := Ascii.nat_of_ascii c in
  is_decimal_char c || Nat.eqb n 178 || Nat.eqb n 179 || Nat.eqb n 185.

Fixpoint all_chars (p : Ascii.ascii -> bool) (s : string) : bool :=
  match s with
  | EmptyString => true
  | String c s' => p c && all_chars p s'
  end.

(** [s.isdigit()]: non-empty, and every character is a digit. *)
Definition isdigit (s : string) : bool :=
  negb (String.eqb s "") && all_chars is_digit_char s.

Fixpoint int_digits (acc : N) (s : string) : N :=
  match s with
  | EmptyString => acc
  | String c s' => int_digits (10 * acc + (Ascii.N_of_ascii c - 48)) s'
  end.

(** [int(s)] for a string of digits: the value in base 10, or [ValueError]
    when the string is empty or a character is not a decimal digit. (The
    bound recent interpreters put on the number of digits is left out.) *)
Definition int (s : string) : Result N :=
  if negb (String.eqb s "") && all_chars is_decimal_char s
  then Ok (int_digits 0 s)
  else Raise (ValueError ("invalid literal for int() with base 10: '" +:+ s +:+ "'")).

(** Insertion of [x] before the first element it is not greater than: the
    step of a stable sort. *)
Fixpoint insert_by {A : Type} (le : A -> A -> bool) (x : A) (l : list A) : list A :=
  match l with
  | [] => [x]
  | y :: l' => if le x y then x :: y :: l' else y :: insert_by le x l'
  end.

(** A stable sort by [le]: elements that compare equal keep their order, as
    in Python's [sorted]. *)
Definition sort_by {A : Type} (le : A -> A -> bool) (l : list A) : list A :=
  foldr (insert_by le) [] l.

End Py.
Export Py.

(** ** The vector store

    The store is a remote Qdrant service, reached through its client: none
    of it is code of the repository. The types below are those of the
    client the code builds and reads; what the store answers is modelled
    from the wire contract of the specification (sections 4.4 and 6), and
    the default of an omitted [limit] from the signature of the client. *)

Module Qdrant.

Abbreviation Payload := (gmap string PyVal).

Definition DenseVector : Type := list Q.

Record SparseVector : Type := mkSparseVector {
  indices : list nat;
  values : list Q
}.

(** A point of the collection: identifier, the two named vectors, payload. *)
Record PointStruct : Type := mkPoint {
  id : nat;
  dense : DenseVector;
  sparse : SparseVector;
  payload : option Payload
}.

(** What [scroll] returns for a point. *)
Record Record_ : Type := mkRecord {
  rec_id : nat;
  rec_payload : option Payload
}.

(** What [query_points] returns for a point. *)
Record ScoredPoint : Type := mkScoredPoint {
  sp_id : nat;
  sp_score : Q;
  sp_payload : option Payload
}.

(** [models.FieldCondition(key, match=models.MatchValue(value))]. *)
Inductive Condition : Type :=
| FieldCondition (key : string) (match_value : PyVal).

(** [models.Filter(must, should, must_not)]. *)
Record Filter : Type := mkFilter {
  must : list Condition;
  should : list Condition;
  must_not : list Condition
}.

Inductive VectorInput : Type :=
| NearestDense (v : DenseVector)
| NearestSparse (v : SparseVector).

(** [models.Prefetch(query, using, limit)]. *)
Record Prefetch : Type := mkPrefetch {
  pf_query : VectorInput;
  pf_using : string;
  pf_limit : nat
}.

Inductive Fusion : Type := RRF.

Inductive Query : Type :=
| FusionQuery (fusion : Fusion).

(** The arguments of a [query_points] call; [limit] is [None] when the call
    does not pass one. *)
Record QueryRequest : Type := mkQueryRequest {
  collection_name : string;
  prefetch : list Prefetch;
  query_filter : option Filter;
  query : Query;
  limit : option nat
}.

(** The state a call runs in: the points of the collection in scroll order,
    the outcome of each coming round trip to the store ([Some e]: it fails
    with [e]; [None], or nothing left: the store serves it), the log, and
    the counter fresh point identifiers are drawn from. *)
Record World : Type := mkWorld {
  points : list PointStruct;
  faults : list (option Exn);
  log : list string;
  next_uuid : nat
}.

(** Computations that read and change the world and may raise. *)
Definition M (A : Type) : Type := World -> Result A * World.

Definition ret {A : Type} (a : A) : M A := fun w => (Ok a, w).

Definition raise {A : Type} (e : Exn) : M A := fun w => (Raise e, w).

Definition bind {A B : Type} (m : M A) (k : A -> M B) : M B :=
  fun w => match m w with
           | (Ok a, w') => k a w'
           | (Raise e, w') => (Raise e, w')
           end.

Definition lift {A : Type} (r : Result A) : M A := fun w => (r, w).

Declare Scope py_scope.
Delimit Scope py_scope with py.
Notation "x <- m ;; k" := (bind m (fun x => k))
  (at level 100, m at next level, right associativity) : py_scope.
Notation "m ;; k" := (bind m (fun _ => k))
  (at level 100, right associativity) : py_scope.

(** [try: body except Exception as e: handler(e)]. *)
Definition try_except {A : Type} (body : M A) (handler : Exn -> M A) : M A :=
  fun w => match body w with
           | (Ok a, w') => (Ok a, w')
           | (Raise e, w') => handler e w'
           end.

(** [logger.error(msg)]. *)
Definition logger_error (msg : string) : M unit :=
  fun w => (Ok tt, mkWorld (points w) (faults w) (log w ++ [msg]) (next_uuid w)).

(** One round trip to the store: it fails as the schedule says, or the store
    serves the request on its points. *)
Definition round_trip {A : Type}
    (serve : list PointStruct -> Result A * list PointStruct) : M A :=
  fun w =>
    match faults w with
    | Some e :: fs => (Raise e, mkWorld (points w) fs (log w) (next_uuid w))
    | _ =>
        let (r, pts) := serve (points w) in
        (r, mkWorld pts (tail (faults w)) (log w) (next_uuid w))
    end.

Definition check_condition (pl : option Payload) (c : Condition) : bool :=
  match c, pl with
  | FieldCondition k v, Some m => bool_decide (m !! k = Some v)
  | FieldCondition _ _, None => false
  end.

(** A payload satisfies a filter when it meets every [must] condition, one of
    the [should] conditions if there are any, and no [must_not] condition. *)
Definition check_filter (f : Filter) (pl : option Payload) : bool :=
  forallb (check_condition pl) (must f)
  && (match should f with [] => true | cs => existsb (check_condition pl) cs end)
  && negb (existsb (check_condition pl) (must_not f)).

Definition eligible (flt : option Filter) (p : PointStruct) : bool :=
  match flt with
  | None => true
  | Some f => check_filter f (payload p)
  end.

(** The name of the collection the points are stored in. *)
Definition stored_collection : string := "genezio".

(** The number of results of a query that passes no [limit]: the default of
    the [limit] parameter of the client's [query_points]. *)
Definition default_limit : nat := 10.

Section Store.

(** The similarity the collection compares each named vector with, and the
    constant of the rank fusion. *)
Variable dense_sim : DenseVector -> DenseVector -> Q.
Variable sparse_sim : SparseVector -> SparseVector -> Q.
Variable rrf_k : nat.

(** Modelled from the spec: section 6 gives each prefetch its own vector and
    field name. The score a prefetch gives a point is the similarity under
    the vector it names; the store refuses a query vector of the other kind
    and a name the collection does not declare. *)
Definition scorer (pf : Prefetch) : Result (PointStruct -> Q) :=
  match pf_query pf with
  | NearestDense v =>
      if String.eqb (pf_using pf) "dense"
      then Ok (fun p => dense_sim v (dense p))
      else Raise (StoreError "Wrong input: not a dense vector name")
  | NearestSparse v =>
      if String.eqb (pf_using pf) "sparse"
      then Ok (fun p => sparse_sim v (sparse p))
      else Raise (StoreError "Wrong input: not a sparse vector name")
  end.

(** Best score first. *)
Definition by_score (sc : PointStruct -> Q) (p q : PointStruct) : bool :=
  Qle_bool (sc q) (sc p).

(** Modelled from the spec: the store is an external service, and section 6
    gives its wire contract: each prefetch searches under its own vector and
    limit, and the metadata filter of the query is applied before fusion, so
    a point must satisfy it to be a candidate of either prefetch. *)
Definition run_prefetch (flt : option Filter) (pts : list PointStruct)
    (pf : Prefetch) : Result (list PointStruct) :=
  rbind (scorer pf) (fun sc =>
    Ok (take (pf_limit pf) (sort_by (by_score sc) (filter (fun p => eligible flt p = true) pts)))).

(** The 1-based rank of the point [i] in a ranking. *)
Fixpoint rank_in (i : nat) (ranking : list PointStruct) : option nat :=
  match ranking with
  | [] => None
  | p :: ranking' =>
      if Nat.eqb (id p) i then Some 1%nat
      else option_map S (rank_in i ranking')
  end.

(** Modelled from the spec: section 4.4 gives the fusion: the fused score of
    a candidate is the sum, over the rankings it appears in, of
    [1 / (rank + k)]. *)
Definition rrf_contribution (i : nat) (ranking : list PointStruct) : Q :=
  match rank_in i ranking with
  | Some r => (1 # Pos.of_nat (r + rrf_k))%Q
  | None => 0%Q
  end.

Definition rrf_score (rankings : list (list PointStruct)) (i : nat) : Q :=
  foldr (fun ranking acc => Qplus (rrf_contribution i ranking) acc) 0%Q rankings.

(** Modelled from the spec: the candidates of a fusion are the points of the
    rankings, each once. *)
Fixpoint dedup_ids (seen : list nat) (l : list PointStruct) : list PointStruct :=
  match l with
  | [] => []
  | p :: l' =>
      if existsb (Nat.eqb (id p)) seen then dedup_ids seen l'
      else p :: dedup_ids (id p :: seen) l'
  end.

Definition to_scored (rankings : list (list PointStruct)) (p : PointStruct) : ScoredPoint :=
  mkScoredPoint (id p) (rrf_score rankings (id p)) (payload p).

(** Best fused score first. *)
Definition by_fused (a b : ScoredPoint) : bool := Qle_bool (sp_score b) (sp_score a).

Definition fuse (rankings : list (list PointStruct)) : list ScoredPoint :=
  sort_by by_fused (map (to_scored rankings) (dedup_ids [] (concat rankings))).

(** Modelled from the spec: what the store answers to [query_points]: the
    fused candidates of the prefetches by descending fused score, cut to the
    limit of the query, which is the client's default when the call passes
    none. *)
Definition serve_query (req : QueryRequest) (pts : list PointStruct) : Result (list ScoredPoint) :=
  if negb (String.eqb (collection_name req) stored_collection)
  then Raise (StoreError "Not found: collection does not exist")
  else match prefetch req with
       | [] => Raise (StoreError "Bad request: fusion needs prefetches")
       | pfs =>
           rbind (rmap (run_prefetch (query_filter req) pts) pfs) (fun rankings =>
             Ok (take (default default_limit (limit req)) (fuse rankings)))
       end.

(** [client.query_points(...)]. *)
Definition query_points (req : QueryRequest) : M (list ScoredPoint) :=
  round_trip (fun pts => (serve_query req pts, pts)).

End Store.

(** Modelled from the spec: section 6 has the summary fetch up to 10,000
    points in one scan. [client.scroll(collection_name, limit, with_payload)]
    answers the first [limit] points and the offset of the next page. *)
Definition serve_scroll (name : string) (lim : nat) (with_payload : bool)
    (pts : list PointStruct) : Result (list Record_ * option nat) :=
  if negb (String.eqb name stored_collection)
  then Raise (StoreError "Not found: collection does not exist")
  else Ok (map (fun p => mkRecord (id p) (if with_payload then payload p else None)) (take lim pts),
           option_map id (head (drop lim pts))).

Definition scroll (name : string) (lim : nat) (with_payload : bool) : M (list Record_ * option nat) :=
  round_trip (fun pts => (serve_scroll name lim with_payload pts, pts)).

(** Modelled from the spec: an upsert stores each point of the batch under
    its identifier, in place of the point that had it, if any. *)
Definition upsert_point (pts : list PointStruct) (p : PointStruct) : list PointStruct :=
  if existsb (fun q => Nat.eqb (id q) (id p)) pts
  then map (fun q => if Nat.eqb (id q) (id p) then p else q) pts
  else (pts ++ [p])%list.

Definition serve_upsert (name : string) (batch : list PointStruct)
    (pts : list PointStruct) : Result unit * list PointStruct :=
  if negb (String.eqb name stored_collection)
  then (Raise (StoreError "Not found: collection does not exist"), pts)
  else (Ok tt, foldl upsert_point pts batch).

(** [client.upsert(collection_name, points)]: a failed round trip stores
    nothing of the batch. *)
Definition upsert (name : string) (batch : list PointStruct) : M unit :=
  round_trip (serve_upsert name batch).

(** A fresh point identifier ([uuid4]). *)
Definition fresh_uuid : M nat :=
  fun w => (Ok (next_uuid w), mkWorld (points w) (faults w) (log w) (S (next_uuid w))).

End Qdrant.
Export Qdrant.
Open Scope py_scope.

(** ** hybrid_retrieval.py *)

Module HybridRetrieval.

(** [payload[key]]. *)
Definition getitem (pl : option Payload) (key : string) : Result PyVal :=
  match pl with
  | None => Raise (TypeError "'NoneType' object is not subscriptable")
  | Some m =>
      match m !! key with
      | Some v => Ok v
      | None => Raise (KeyError key)
      end
  end.

(** The two embedding models of a [HybridSearch] object, each as the function
    from a text to its vector; the Qdrant client is the [World]. *)
Record HybridSearch : Type := mkHybridSearch {
  embedding_model : string -> Result DenseVector;
  sparse_embedding_model : string -> Result SparseVector
}.

Definition collection_name_ : string := "genezio".

(** The default of the [limit] argument. *)
Definition limit_default : nat := 5.

(** The arguments [query_hybrid_search] gives [query_points]: the sparse and
    the dense prefetch, the filter, the fusion, and no limit of its own. *)
Definition hybrid_request (dense_query : DenseVector) (sparse_query : SparseVector)
    (metadata_filter : option Filter) (limit : nat) : QueryRequest :=
  mkQueryRequest collection_name_
    [ mkPrefetch
        (NearestSparse (mkSparseVector (indices sparse_query) (values sparse_query)))
        "sparse" limit;
      mkPrefetch (NearestDense dense_query) "dense" limit ]
    metadata_filter
    (FusionQuery RRF)
    None.

Section HybridSearch.

Variable dense_sim : DenseVector -> DenseVector -> Q.
Variable sparse_sim : SparseVector -> SparseVector -> Q.
Variable rrf_k : nat.

Definition query_hybrid_search (self : HybridSearch) (query : string)
    (metadata_filter : option Filter) (limit : nat) : M (list PyVal) :=
  dense_query <- lift (embedding_model self query) ;;
  sparse_query <- lift (sparse_embedding_model self query) ;;
  results <- query_points dense_sim sparse_sim rrf_k
               (hybrid_request dense_query sparse_query metadata_filter limit) ;;
  lift (rmap (fun point => getitem (sp_payload point) "text") results).

End HybridSearch.

End HybridRetrieval.
Export HybridRetrieval.

(** ** main.py *)

Module Main.

Definition COLLECTION_NAME : string := "genezio".

(** An entry of a file's [text_chunks]. *)
Record TextChunk : Type := mkTextChunk {
  page : PyVal;
  text : string
}.

(** The summary of one file. [pages] is a set while the points are scanned
    (its distinct elements, in the order they were added) and the sorted
    list once the scan is over. *)
Record Document : Type := mkDocument {
  pages : list PyVal;
  file_path : PyVal;
  file_type : PyVal;
  file_size : PyVal;
  creation_date : PyVal;
  last_modified_date : PyVal;
  text_chunks : list TextChunk
}.

(** [documents]: a dict from file name to summary, in insertion order. *)
Definition Documents : Type := list (PyVal * Document).

(** [payload.get(key, default)] on a payload that is a dict. *)
Definition get (m : Payload) (key : string) (dflt : PyVal) : PyVal :=
  default dflt (m !! key).

(** [key in documents]. *)
Definition contains (documents : Documents) (key : PyVal) : bool :=
  existsb (fun kv => bool_decide (kv.1 = key)) documents.

(** [documents[key] = f(documents[key])] for a key of the dict. *)
Fixpoint update (key : PyVal) (f : Document -> Document) (documents : Documents) : Documents :=
  match documents with
  | [] => []
  | (k, d) :: rest =>
      if bool_decide (k = key) then (k, f d) :: rest
      else (k, d) :: update key f rest
  end.

(** [s.add(x)]. *)
Definition set_add (x : PyVal) (s : list PyVal) : list PyVal :=
  if bool_decide (x ∈ s) then s else (s ++ [x])%list.

(** [text[:200] + "..." if len(text) > 200 else text]. *)
Definition preview (t : PyVal) : Result string :=
  match t with
  | PStr s => Ok (if Nat.ltb 200 (len s) then slice_to 200 s +:+ "..." else s)
  | PInt _ => Raise (TypeError "object of type 'int' has no len()")
  | PNone => Raise (TypeError "object of type 'NoneType' has no len()")
  end.

(** The body of the loop over the points. *)
Definition add_point (documents : Documents) (point : Record_) : Result Documents :=
  match rec_payload point with
  | None => Raise (AttributeError "'NoneType' object has no attribute 'get'")
  | Some payload =>
      let filename := get payload "file_name" PNone in
      let documents1 :=
        if contains documents filename then documents
        else (documents ++
             [(filename,
               mkDocument []
                 (get payload "file_path" (PStr ""))
                 (get payload "file_type" (PStr ""))
                 (get payload "file_size" (PStr ""))
                 (get payload "creation_date" (PStr ""))
                 (get payload "last_modified_date" (PStr ""))
                 [])])%list in
      let documents2 :=
        match payload !! "page_label" with
        | Some label =>
            update filename
              (fun d => mkDocument (set_add label (pages d)) (file_path d) (file_type d)
                          (file_size d) (creation_date d) (last_modified_date d)
                          (text_chunks d))
              documents1
        | None => documents1
        end in
      match payload !! "text" with
      | Some t =>
          rbind (preview t) (fun p =>
            Ok (update filename
                  (fun d => mkDocument (pages d) (file_path d) (file_type d)
                              (file_size d) (creation_date d) (last_modified_date d)
                              (text_chunks d ++ [mkTextChunk (get payload "page_label" PNone) p])%list)
                  documents2))
      | None => Ok documents2
      end
  end.

(** [for point in points: ...]. *)
Fixpoint scan (documents : Documents) (points : list Record_) : Result Documents :=
  match points with
  | [] => Ok documents
  | point :: rest => rbind (add_point documents point) (fun documents' => scan documents' rest)
  end.

(** The value of the sort key: an integer, or [float("inf")]. *)
Inductive SortKey : Type :=
| KInt (n : N)
| KInf.

(** [lambda x: int(x) if x.isdigit() else float("inf")]. *)
Definition page_key (x : PyVal) : Result SortKey :=
  match x with
  | PStr s => if isdigit s then rbind (int s) (fun n => Ok (KInt n)) else Ok KInf
  | PInt _ => Raise (AttributeError "'int' object has no attribute 'isdigit'")
  | PNone => Raise (AttributeError "'NoneType' object has no attribute 'isdigit'")
  end.

Definition key_le (a b : SortKey) : bool :=
  match a, b with
  | KInt x, KInt y => N.leb x y
  | KInt _, KInf => true
  | KInf, KInt _ => false
  | KInf, KInf => true
  end.

(** [sorted(l, key=key)]: the keys are computed first, then the list is
    sorted by them, stably. *)
Definition sorted {A K : Type} (key : A -> Result K) (le : K -> K -> bool)
    (l : list A) : Result (list A) :=
  rbind (rmap (fun x => rbind (key x) (fun k => Ok (k, x))) l) (fun decorated =>
    Ok (map snd (sort_by (fun a b => le (fst a) (fst b)) decorated))).

Section DocumentStats.

Variable dense_sim : DenseVector -> DenseVector -> Q.
Variable sparse_sim : SparseVector -> SparseVector -> Q.
Variable rrf_k : nat.

(** The order in which Python iterates a set with the given elements. *)
Variable set_iter : list PyVal -> list PyVal.

(** The [DocumentStats] object; its Qdrant client is the [World]. *)
Record DocumentStats : Type := mkDocumentStats {
  hybrid_search : HybridSearch
}.

(** [doc["pages"] = sorted(list(doc["pages"]), key=...)]. *)
Definition sort_pages (kv : PyVal * Document) : Result (PyVal * Document) :=
  let d := kv.2 in
  rbind (sorted page_key key_le (set_iter (pages d))) (fun l =>
    Ok (kv.1, mkDocument l (file_path d) (file_type d) (file_size d)
                (creation_date d) (last_modified_date d) (text_chunks d))).

(** The body of the [try] of [get_indexed_documents]. *)
Definition fetch_documents : M Documents :=
  response <- scroll COLLECTION_NAME 10000 true ;;
  let points := response.1 in
  lift (rbind (scan [] points) (fun documents => rmap sort_pages documents)).

Definition get_indexed_documents (self : DocumentStats) : M Documents :=
  try_except fetch_documents (fun e =>
    logger_error ("Error fetching documents: " +:+ str_exn e) ;;
    ret []).

Definition search_documents (self : DocumentStats) (query_text : string) (limit : nat)
    : M (list PyVal) :=
  try_except
    (query_hybrid_search dense_sim sparse_sim rrf_k (hybrid_search self) query_text None limit)
    (fun e =>
       logger_error ("Error searching documents: " +:+ str_exn e) ;;
       ret []).

End DocumentStats.

(** The two digits of a number below 100. *)
Definition two_digits (n : N) : string :=
  String (Ascii.ascii_of_N (48 + N.modulo (N.div n 10) 10))
    (String (Ascii.ascii_of_N (48 + N.modulo n 10)) "").

(** [f"{x:.2f}"]: the value rounded to hundredths, ties to the even
    neighbour, printed with the sign of the value, its integer part, a dot
    and two decimals. *)
Definition format_2f (x : Q) : string :=
  let n := (Qnum x * 100)%Z in
  let d := Zpos (Qden x) in
  let f := (n / d)%Z in
  let r := (n mod d)%Z in
  let cents :=
    if (2 * r <? d)%Z then f
    else if (d <? 2 * r)%Z then (f + 1)%Z
    else if Z.even f then f else (f + 1)%Z in
  (if (Qnum x <? 0)%Z then "-" else "")
  +:+ str_of_N (Z.to_N (Z.abs cents / 100))
  +:+ "." +:+ two_digits (Z.to_N (Z.abs cents mod 100)).

(** The loop of [format_file_size] over the units that are left. *)
Fixpoint format_units (units : list string) (size : Q) : string :=
  match units with
  | [] => format_2f size +:+ " TB"
  | unit :: rest =>
      if negb (Qle_bool 1024 size)
      then format_2f size +:+ " " +:+ unit
      else format_units rest (size / 1024)
  end.

(** [format_file_size(size_in_bytes)] for an integer number of bytes. The
    divisions by 1024 are those of Python's floats; they are exact, as the
    rationals here are, for sizes below 2^53 in absolute value. *)
Definition format_file_size (size_in_bytes : Z) : string :=
  format_units ["B"; "KB"; "MB"; "GB"] (inject_Z size_in_bytes).

(** The calls to Streamlit that draw the page, in the order they are made. *)
Inductive StCall : Type :=
| st_info (body : string)
| st_markdown (body : string)
| st_text_area (label : string) (value : PyVal) (height : nat) (disabled : bool)
    (key : string).

(** [for i, result in enumerate(results): ...], from the index [i] on. *)
Fixpoint display_results_from (i : nat) (results : list PyVal) : list StCall :=
  match results with
  | [] => []
  | result :: rest =>
      st_markdown "**Content**"
      :: st_text_area "Text" result 150 true ("result_" +:+ str_of_N (N.of_nat i))
      :: display_results_from (S i) rest
  end.

Definition display_search_results (results : list PyVal) : list StCall :=
  match results with
  | [] => [st_info "No results found."]
  | _ => display_results_from 0 results
  end.

End Main.

(** ** indexing.py *)

Module Indexing.

(** Modelled from the spec: section 3, a chunk of a document: its text and
    its metadata. *)
Record Node : Type := mkNode {
  node_text : string;
  metadata : Payload
}.

(** Modelled from the spec: section 4.3, the indexer: its two embedding
    models and the size of a batch, a constant of the implementation. *)
Record QdrantIndexer : Type := mkQdrantIndexer {
  dense_model : string -> Result DenseVector;
  sparse_model : string -> Result SparseVector;
  batch_size : nat
}.

Fixpoint batches {A : Type} (fuel n : nat) (l : list A) : list (list A) :=
  match fuel with
  | O => []
  | S fuel' =>
      match l with
      | [] => []
      | _ => take n l :: batches fuel' n (drop n l)
      end
  end.

(** Modelled from the spec: section 4.3 upserts the points in batches: the
    list cut into consecutive batches of [n] elements, the last one possibly
    shorter. *)
Definition split_batches {A : Type} (n : nat) (l : list A) : list (list A) :=
  batches (length l) n l.

(** Modelled from the spec: [indexing.py] is not among the sources. Section
    4.3: a chunk becomes a point with both embeddings of its text, a fresh
    identifier, and its metadata with the text as payload. *)
Definition make_point (self : QdrantIndexer) (chunk : Node) : M PointStruct :=
  d <- lift (dense_model self (node_text chunk)) ;;
  s <- lift (sparse_model self (node_text chunk)) ;;
  i <- fresh_uuid ;;
  ret (mkPoint i d s (Some (<["text" := PStr (node_text chunk)]> (metadata chunk)))).

Fixpoint make_points (self : QdrantIndexer) (chunks : list Node) : M (list PointStruct) :=
  match chunks with
  | [] => ret []
  | chunk :: rest =>
      p <- make_point self chunk ;;
      ps <- make_points self rest ;;
      ret (p :: ps)
  end.

(** Modelled from the spec: section 4.3: the batches are upserted one after
    the other; a batch that fails is logged with its number and makes the
    result false, and the batches after it are still upserted. *)
Fixpoint upsert_batches (bs : list (list PointStruct)) (n : nat) (success : bool) : M bool :=
  match bs with
  | [] => ret success
  | batch :: rest =>
      success' <- try_except
                    (upsert stored_collection batch ;; ret success)
                    (fun e =>
                       logger_error ("Error upserting batch " +:+ str_of_N (N.of_nat n)
                                     +:+ ": " +:+ str_exn e) ;;
                       ret false) ;;
      upsert_batches rest (S n) success'
  end.

(** Modelled from the spec: [QdrantIndexer.index_documents]. *)
Definition index_documents (self : QdrantIndexer) (chunks : list Node) : M bool :=
  pts <- make_points self chunks ;;
  upsert_batches (split_batches (batch_size self) pts) 0 true.

End Indexing.

(** ** main_fastapi.py *)

Module MainFastapi.

Import Indexing.

(** An uploaded file: its name, if the client sent one, and its bytes. *)
Record UploadFile : Type := mkUploadFile {
  filename : option string;
  file : string
}.

Record ProcessingResponse : Type := mkProcessingResponse {
  success : bool;
  message : string;
  document_count : option nat
}.

Record SearchQuery : Type := mkSearchQuery {
  sq_query : string;
  sq_metadata_filter : option Filter;
  sq_limit : nat
}.

Record SearchResponse : Type := mkSearchResponse {
  documents : list PyVal
}.

(** What the endpoint uses of the module [indexing], which is not among the
    sources: [DocumentProcessor().process_documents] on the files of a
    directory, and the two methods of a [QdrantIndexer]. *)
Record IndexingModule : Type := mkIndexingModule {
  process_documents : list (string * string) -> M (list Node * option string);
  setup_collection : string -> M unit;
  indexer_index_documents : list Node -> M bool
}.

(** [if error:] for an error that is [None] or a string. *)
Definition truthy (error : option string) : bool :=
  match error with
  | Some s => negb (String.eqb s "")
  | None => false
  end.

(** [nodes[0].text]. *)
Definition first_text (nodes : list Node) : Result string :=
  match nodes with
  | node :: _ => Ok (node_text node)
  | [] => Raise (IndexError "list index out of range")
  end.

Section Endpoints.

Variable indexing : IndexingModule.

(** Writing the bytes of an upload to a path of the temporary directory
    (given as the files it holds): the new directory, or the error of the
    operating system. *)
Variable write_file :
  list (string * string) -> string -> string -> Result (list (string * string)).

(** The loop that checks and saves the uploaded files. *)
Fixpoint save_files (temp_dir : list (string * string)) (files : list UploadFile)
    : Result (list (string * string)) :=
  match files with
  | [] => Ok temp_dir
  | f :: rest =>
      match filename f with
      | None => Raise (AttributeError "'NoneType' object has no attribute 'lower'")
      | Some name =>
          if negb (endswith (lower name) ".pdf")
          then Raise (HTTPException 400 ("File " +:+ name +:+ " is not a PDF"))
          else rbind (write_file temp_dir name (file f)) (fun temp_dir' =>
                 save_files temp_dir' rest)
      end
  end.

(** [POST /index/]. *)
Definition index_documents (files : list UploadFile) : M ProcessingResponse :=
  try_except
    (temp_dir <- lift (save_files [] files) ;;
     r <- process_documents indexing temp_dir ;;
     let nodes := r.1 in
     let error := r.2 in
     if truthy error
     then raise (HTTPException 400 (default "" error))
     else
       sample <- lift (first_text nodes) ;;
       setup_collection indexing sample ;;
       success <- indexer_index_documents indexing nodes ;;
       if negb success
       then raise (HTTPException 500
                     "Some batches failed during indexing. Check logs for details.")
       else ret (mkProcessingResponse true
                   "Documents processed and indexed successfully"
                   (Some (length nodes))))
    (fun e => raise (HTTPException 500 (str_exn e))).

Variable dense_sim : DenseVector -> DenseVector -> Q.
Variable sparse_sim : SparseVector -> SparseVector -> Q.
Variable rrf_k : nat.

(** [POST /search/], with the [HybridSearch()] it builds. *)
Definition search_documents (search_engine : HybridSearch) (query : SearchQuery)
    : M SearchResponse :=
  try_except
    (docs <- query_hybrid_search dense_sim sparse_sim rrf_k search_engine
               (sq_query query) (sq_metadata_filter query) (sq_limit query) ;;
     ret (mkSearchResponse docs))
    (fun e => raise (HTTPException 500 ("Search failed: " +:+ str_exn e))).

End Endpoints.

(** [GET /health/]. *)
Definition health_check : M (gmap string string) :=
  ret {[ "status" := "healthy" ]}.

(** The status of the HTTP response: 200 for a returned body, the code of a
    raised [HTTPException], 500 for any other exception. *)
Definition status_of {A : Type} (r : Result A) : Z :=
  match r with
  | Ok _ => 200
  | Raise (HTTPException c _) => c
  | Raise _ => 500
  end.

End MainFastapi.

(** * The statements of the claims

    The definitions the theorems are stated with: the failure cases of the
    two reading paths, the summary of the documents as a function of the
    points, the outcome of the batches as a function of the schedule of the
    store, and a small collection to run the code on. *)

Section FailureCases.

Variable dense_sim : DenseVector -> DenseVector -> Q.
Variable sparse_sim : SparseVector -> SparseVector -> Q.
Variable rrf_k : nat.

(** The ways [query_hybrid_search] meets an exception [e]: the dense
    embedding raises it; or the sparse embedding does; or both vectors are
    there and the round trip to the store raises it. *)
Inductive retrieval_fails (self : HybridSearch) (query : string)
    (metadata_filter : option Filter) (limit : nat) (w : World) (e : Exn) : Prop :=
| dense_embedding_fails :
    embedding_model self query = Raise e ->
    retrieval_fails self query metadata_filter limit w e
| sparse_embedding_fails (d : DenseVector) :
    embedding_model self query = Ok d ->
    sparse_embedding_model self query = Raise e ->
    retrieval_fails self query metadata_filter limit w e
| store_round_trip_fails (d : DenseVector) (s : SparseVector) :
    embedding_model self query = Ok d ->
    sparse_embedding_model self query = Ok s ->
    (query_points dense_sim sparse_sim rrf_k
       (hybrid_request d s metadata_filter limit) w).1 = Raise e ->
    retrieval_fails self query metadata_filter limit w e.

Variable set_iter : list PyVal -> list PyVal.

(** The ways the body of [get_indexed_documents] meets an exception [e]:
    fetching the points raises it; or the scan of the points does; or
    sorting the page labels does. *)
Inductive fetch_fails (w : World) (e : Exn) : Prop :=
| scroll_raises :
    (scroll Main.COLLECTION_NAME 10000 true w).1 = Raise e ->
    fetch_fails w e
| scan_raises (response : list Record_ * option nat) :
    (scroll Main.COLLECTION_NAME 10000 true w).1 = Ok response ->
    Main.scan [] response.1 = Raise e ->
    fetch_fails w e
| sort_raises (response : list Record_ * option nat) (documents : Main.Documents) :
    (scroll Main.COLLECTION_NAME 10000 true w).1 = Ok response ->
    Main.scan [] response.1 = Ok documents ->
    rmap (Main.sort_pages set_iter) documents = Raise e ->
    fetch_fails w e.

End FailureCases.

(** The filter of the example: the file name of the payload is [name]. *)
Definition file_name_filter (name : string) : Filter :=
  mkFilter [FieldCondition "file_name" (PStr name)] [] [].

(** A point of the collection that passes the filter. *)
Definition satisfies (f : Filter) (pts : list PointStruct) (p : PointStruct) : Prop :=
  p ∈ pts /\ check_filter f (payload p) = true.

(** ** The document summary, stated on the points *)

Module SummarySpec.

Import Main.

(** The records a scroll of the collection returns. *)
Definition to_record (p : PointStruct) : Record_ := mkRecord (id p) (payload p).

Definition scanned (w : World) : list Record_ := map to_record (take 10000 (points w)).

Definition file_name_of (m : Payload) : PyVal := get m "file_name" PNone.

(** The page labels of the points of a file, in the order of the points. *)
Definition labels_of (fname : PyVal) (rs : list Record_) : list PyVal :=
  omap (fun r =>
          match rec_payload r with
          | Some m => if bool_decide (file_name_of m = fname) then m !! "page_label" else None
          | None => None
          end) rs.

(** The distinct labels, each at its first occurrence. *)
Definition encounter_order (labels : list PyVal) : list PyVal :=
  foldl (fun s x => set_add x s) [] labels.

(** The preview of a text, in the words of the claim: the text when it has
    at most 200 characters, else its first 200 characters and three dots. *)
Definition spec_preview (s : string) : string :=
  if bool_decide (len s <= 200)%nat then s else slice_to 200 s +:+ "...".

(** The previews of a file: one for each of its points that has a text. *)
Definition spec_text_chunks (fname : PyVal) (rs : list Record_) : list TextChunk :=
  omap (fun r =>
          match rec_payload r with
          | Some m =>
              if bool_decide (file_name_of m = fname)
              then match m !! "text" with
                   | Some (PStr s) =>
                       Some (mkTextChunk (get m "page_label" PNone) (spec_preview s))
                   | _ => None
                   end
              else None
          | None => None
          end) rs.

(** The texts of the points of a file, each with the page label of its
    point, in the order of the points. *)
Definition texts_of (fname : PyVal) (rs : list Record_) : list (PyVal * string) :=
  omap (fun r =>
          match rec_payload r with
          | Some m =>
              if bool_decide (default PNone (m !! "file_name") = fname)
              then match m !! "text" with
                   | Some (PStr s) => Some (default PNone (m !! "page_label"), s)
                   | _ => None
                   end
              else None
          | None => None
          end) rs.

(** [p] is the preview of the text [s]: [s] itself when [s] has at most 200
    characters; else the 200 characters [s] begins with, followed by three
    dots. *)
Definition cut_to_200 (s p : string) : Prop :=
  ((String.length s <= 200)%nat /\ p = s)
  \/ ((200 < String.length s)%nat
      /\ exists prefix rest,
           s = prefix +:+ rest
           /\ String.length prefix = 200%nat
           /\ p = prefix +:+ "...").

(** The chunks are the previews of the texts, one for one and in order, each
    with the page label of its text. *)
Definition previews_of (texts : list (PyVal * string)) (chunks : list TextChunk) : Prop :=
  Forall2 (fun t c => page c = t.1 /\ cut_to_200 t.2 (text c)) texts chunks.

(** The integer a label stands for, when it is a string of decimal digits. *)
Definition numeric_value (x : PyVal) : option N :=
  match x with
  | PStr s =>
      if isdigit s
      then match int s with Ok n => Some n | Raise _ => None end
      else None
  | _ => None
  end.

Definition non_numeric (x : PyVal) : bool :=
  match numeric_value x with
  | Some _ => false
  | None => true
  end.

(** The order of the page labels of a summary: a label with an integer
    value is preceded only by labels with a value that is not greater. *)
Definition numeric_first_ascending (l : list PyVal) : Prop :=
  forall i j a b n,
    (i < j)%nat -> l !! i = Some a -> l !! j = Some b ->
    numeric_value b = Some n ->
    exists m, numeric_value a = Some m /\ (m <= n)%N.

(** A possible iteration order of sets: it lists the elements of the set. *)
Definition iterates_sets (set_iter : list PyVal -> list PyVal) : Prop :=
  forall s, NoDup s -> set_iter s ≡ₚ s.

(** The order of the page labels as the claim has it: by the comparator,
    and the labels without a value in the order in which the points bring
    them. *)
Definition pages_as_claimed (set_iter : list PyVal -> list PyVal) : Prop :=
  forall self w w' documents fname doc,
    get_indexed_documents set_iter self w = (Ok documents, w') ->
    (fname, doc) ∈ documents ->
    numeric_first_ascending (pages doc)
    /\ filter (fun x => non_numeric x = true) (pages doc)
       = filter (fun x => non_numeric x = true)
           (encounter_order (labels_of fname (scanned w))).

Definition is_inf (k : SortKey) : bool :=
  match k with KInf => true | KInt _ => false end.

(** What the scan has built after the points [rs]: one entry for each file
    met, with the set of its labels and its previews. *)
Definition summary_of (documents : Documents) (rs : list Record_) : Prop :=
  NoDup (map fst documents)
  /\ (forall r m, r ∈ rs -> rec_payload r = Some m -> file_name_of m ∈ map fst documents)
  /\ (forall fname d, (fname, d) ∈ documents ->
        pages d = encounter_order (labels_of fname rs)
        /\ text_chunks d = spec_text_chunks fname rs).

End SummarySpec.

(** ** The batches of an indexing call *)

Module IndexingSpec.

Import Indexing.

(** The store serves the [i]-th round trip of a call that starts in [w]. *)
Definition round_trip_succeeds (w : World) (i : nat) : Prop :=
  match faults w !! i with
  | Some (Some _) => False
  | _ => True
  end.

(** The payload of the point of a chunk: its metadata and its text. *)
Definition payload_of (chunk : Node) : option Payload :=
  Some (<["text" := PStr (node_text chunk)]> (metadata chunk)).

(** Both embeddings of every chunk succeed. *)
Definition embeddable (self : QdrantIndexer) (chunks : list Node) : Prop :=
  forall chunk, chunk ∈ chunks ->
    exists d s, dense_model self (node_text chunk) = Ok d
                /\ sparse_model self (node_text chunk) = Ok s.

Definition head_ok (fs : list (option Exn)) : bool :=
  match fs with
  | Some _ :: _ => false
  | _ => true
  end.

(** The outcome of upserting the batches [bs] one after the other under the
    schedule [fs]: whether all succeed, and the points of the store after. *)
Fixpoint all_ok (fs : list (option Exn)) (bs : list (list PointStruct)) : bool :=
  match bs with
  | [] => true
  | _ :: bs' => head_ok fs && all_ok (tail fs) bs'
  end.

Fixpoint store_after (fs : list (option Exn)) (bs : list (list PointStruct))
    (pts : list PointStruct) : list PointStruct :=
  match bs with
  | [] => pts
  | b :: bs' =>
      store_after (tail fs) bs' (if head_ok fs then foldl upsert_point pts b else pts)
  end.

End IndexingSpec.

(** ** A small collection *)

Module Scenario.

Import Main Indexing MainFastapi.

(** The similarity of two dense vectors: their dot product. *)
Fixpoint dot (a b : list Q) : Q :=
  match a, b with
  | x :: a', y :: b' => Qplus (Qmult x y) (dot a' b')
  | _, _ => 0%Q
  end.

Fixpoint weight_at (i : nat) (idx : list nat) (vals : list Q) : Q :=
  match idx, vals with
  | j :: idx', v :: vals' => if Nat.eqb i j then v else weight_at i idx' vals'
  | _, _ => 0%Q
  end.

(** The similarity of two sparse vectors: the dot product over the indices
    they share. *)
Definition sparse_dot (a b : SparseVector) : Q :=
  foldr (fun iv acc => Qplus (Qmult iv.2 (weight_at iv.1 (indices b) (values b))) acc)
    0%Q (zip (indices a) (values a)).

Definition payload_with (name label content : string) : option Payload :=
  Some (<["file_name" := PStr name]>
          (<["page_label" := PStr label]> (<["text" := PStr content]> ∅))).

(** A passage that shares the words of the query, and one that is close to
    it in meaning only. *)
Definition p_keyword : PointStruct :=
  mkPoint 1 [1%Q; 0%Q] (mkSparseVector [0%nat] [1%Q]) (payload_with "A.pdf" "1" "keyword match").

Definition p_semantic : PointStruct :=
  mkPoint 2 [0%Q; 1%Q] (mkSparseVector [1%nat] [1%Q]) (payload_with "B.pdf" "2" "semantic match").

(** Embedding models that give the query the dense vector of [p_semantic]
    and the sparse vector of [p_keyword]. *)
Definition searcher : HybridSearch :=
  mkHybridSearch (fun _ => Ok [0%Q; 1%Q]) (fun _ => Ok (mkSparseVector [0%nat] [1%Q])).

Definition stats : DocumentStats := mkDocumentStats searcher.

Definition two_points : World := mkWorld [p_keyword; p_semantic] [] [] 0.

(** The same collection when the store fails the next round trip and would
    serve the one after. *)
Definition store_down_once : World :=
  mkWorld [p_keyword; p_semantic] [Some (StoreError "timed out"); None] [] 0.

(** A file with the page labels ii, 10, iv and 2, in this order. *)
Definition labelled (i : nat) (label : string) : PointStruct :=
  mkPoint i [] (mkSparseVector [] []) (payload_with "A.pdf" label ("page " +:+ label)).

Definition four_pages : World :=
  mkWorld [labelled 1 "ii"; labelled 2 "10"; labelled 3 "iv"; labelled 4 "2"] [] [] 0.

(** The summary of that file, up to the order of its page labels. *)
Definition four_pages_summary (labels : list PyVal) : Documents :=
  [(PStr "A.pdf",
    mkDocument labels
      (PStr "") (PStr "") (PStr "") (PStr "") (PStr "")
      [mkTextChunk (PStr "ii") "page ii"; mkTextChunk (PStr "10") "page 10";
       mkTextChunk (PStr "iv") "page iv"; mkTextChunk (PStr "2") "page 2"])].

(** A page label that is a digit and not a decimal one: superscript two. *)
Definition superscript_two : string := String (Ascii.ascii_of_nat 178) "".

Definition odd_label : World :=
  mkWorld [labelled 1 "1"; labelled 2 superscript_two] [] [] 0.

(** A text of [n] characters. *)
Fixpoint letters (n : nat) : string :=
  match n with
  | O => ""
  | S n' => "a" +:+ letters n'
  end.

(** A file with a page of 201 characters, a page of 200 and a short one,
    and the summary of the file. *)
Definition long_page : World :=
  mkWorld [mkPoint 1 [] (mkSparseVector [] []) (payload_with "A.pdf" "1" (letters 201));
           mkPoint 2 [] (mkSparseVector [] []) (payload_with "A.pdf" "2" (letters 200));
           mkPoint 3 [] (mkSparseVector [] []) (payload_with "A.pdf" "3" "short")]
    [] [] 0.

Definition long_page_chunks : list TextChunk :=
  [mkTextChunk (PStr "1") (letters 200 +:+ "...");
   mkTextChunk (PStr "2") (letters 200);
   mkTextChunk (PStr "3") "short"].

Definition long_page_summary : Documents :=
  [(PStr "A.pdf",
    mkDocument [PStr "1"; PStr "2"; PStr "3"]
      (PStr "") (PStr "") (PStr "") (PStr "") (PStr "") long_page_chunks)].

(** An indexer with batches of two points. *)
Definition indexer : QdrantIndexer :=
  mkQdrantIndexer (fun _ => Ok [1%Q]) (fun _ => Ok (mkSparseVector [] [])) 2.

Definition three_chunks : list Node :=
  [mkNode "one" ∅; mkNode "two" ∅; mkNode "three" ∅].

(** An empty store that fails the first round trip only. *)
Definition first_batch_fails : World :=
  mkWorld [] [Some (StoreError "unavailable")] [] 0.

(** A module [indexing] that finds one chunk in every file, and indexes
    with [indexer]. *)
Definition indexing_module : IndexingModule :=
  mkIndexingModule
    (fun temp_dir => ret (map (fun f => mkNode f.2 ∅) temp_dir, None))
    (fun _ => ret tt)
    (Indexing.index_documents indexer).

Definition write_file (temp_dir : list (string * string)) (name content : string)
    : Result (list (string * string)) :=
  Ok (temp_dir ++ [(name, content)])%list.

End Scenario.

(** ** Further statements on the summary and on the page of results *)

Module CoverageSpec.

Import Main SummarySpec.

(** The file names of the points, in the order of the points; a point
    without a file name counts under [None]. *)
Definition file_names (rs : list Record_) : list PyVal :=
  omap (fun r => file_name_of <$> rec_payload r) rs.

(** The payload of the first point of a file. *)
Definition first_payload (fname : PyVal) (rs : list Record_) : option Payload :=
  head (omap (fun r =>
                match rec_payload r with
                | Some m => if bool_decide (file_name_of m = fname) then Some m else None
                | None => None
                end) rs).

(** The entry a file gets when its first point is met. *)
Definition new_entry (m : Payload) : Document :=
  mkDocument []
    (get m "file_path" (PStr "")) (get m "file_type" (PStr ""))
    (get m "file_size" (PStr "")) (get m "creation_date" (PStr ""))
    (get m "last_modified_date" (PStr "")) [].

(** Two summaries of a file that describe the file alike. *)
Definition same_file_fields (d d' : Document) : Prop :=
  file_path d' = file_path d
  /\ file_type d' = file_type d
  /\ file_size d' = file_size d
  /\ creation_date d' = creation_date d
  /\ last_modified_date d' = last_modified_date d.

(** The fields of a summary that describe the file are those of [m]. *)
Definition file_fields_from (m : Payload) (d : Document) : Prop :=
  file_path d = get m "file_path" (PStr "")
  /\ file_type d = get m "file_type" (PStr "")
  /\ file_size d = get m "file_size" (PStr "")
  /\ creation_date d = get m "creation_date" (PStr "")
  /\ last_modified_date d = get m "last_modified_date" (PStr "").

(** Every entry of the summary describes its file as the first point of the
    file does. *)
Definition described_by_first (documents : Documents) (rs : list Record_) : Prop :=
  forall fname d, (fname, d) ∈ documents ->
    exists m, first_payload fname rs = Some m /\ file_fields_from m d.

(** The text areas among the calls: what each shows, and its key. *)
Definition text_areas (calls : list StCall) : list (PyVal * string) :=
  omap (fun c =>
          match c with
          | st_text_area _ value _ _ key => Some (value, key)
          | _ => None
          end) calls.

(** The world with the collection cut to its first [n] points. *)
Definition first_points (n : nat) (w : World) : World :=
  mkWorld (take n (points w)) (faults w) (log w) (next_uuid w).

End CoverageSpec.

(** ** More collections *)

Module Cases.

Import Main MainFastapi Scenario.

(** A point whose payload has a file name and a page label, and no text. *)
Definition p_untitled : PointStruct :=
  mkPoint 3 [0%Q; 1%Q] (mkSparseVector [0%nat] [1%Q])
    (Some (<["file_name" := PStr "C.pdf"]> (<["page_label" := PStr "1"]> ∅))).

Definition with_untitled : World := mkWorld [p_keyword; p_untitled] [] [] 0.

(** A point of [A.pdf] with a path and a size, and a later one of the same
    file with another path; a point without a file name. *)
Definition described (i : nat) (path size label : string) : PointStruct :=
  mkPoint i [] (mkSparseVector [] [])
    (Some (<["file_name" := PStr "A.pdf"]>
             (<["file_path" := PStr path]>
                (<["file_size" := PStr size]> (<["page_label" := PStr label]> ∅))))).

Definition nameless : PointStruct :=
  mkPoint 9 [] (mkSparseVector [] []) (Some (<["text" := PStr "loose"]> ∅)).

Definition two_descriptions : World :=
  mkWorld [described 1 "/tmp/a/A.pdf" "2048" "1"; nameless;
           described 2 "/tmp/b/A.pdf" "4096" "2"] [] [] 0.

(** The summary of that collection: the file with the path and the size of
    its first point, and the entry of the point without a file name. *)
Definition two_descriptions_summary : Documents :=
  [(PStr "A.pdf",
    mkDocument [PStr "1"; PStr "2"] (PStr "/tmp/a/A.pdf") (PStr "") (PStr "2048")
      (PStr "") (PStr "") []);
   (PNone,
    mkDocument [] (PStr "") (PStr "") (PStr "") (PStr "") (PStr "")
      [mkTextChunk PNone "loose"])].

(** The answer of the store to a search with limit 5 on that collection. *)
Definition untitled_answer : list ScoredPoint :=
  match (query_points dot sparse_dot 2
           (hybrid_request [0%Q; 1%Q] (mkSparseVector [0%nat] [1%Q]) None 5)
           with_untitled).1 with
  | Ok results => results
  | Raise _ => []
  end.

(** A page label that is a number and not a string. *)
Definition numbered_payload : Payload :=
  <["file_name" := PStr "B.pdf"]> (<["page_label" := PInt 3]> ∅).

Definition numbered : PointStruct :=
  mkPoint 5 [] (mkSparseVector [] []) (Some numbered_payload).

Definition with_number_label : World :=
  mkWorld [labelled 1 "1"; numbered] [] [] 0.



(** A module [indexing] whose processing finds no chunk and reports no
    error. *)
Definition no_chunks : IndexingModule :=
  mkIndexingModule
    (fun _ => ret ([], None))
    (fun _ => ret tt)
    (Indexing.index_documents indexer).

(** Uploads with a name in capitals, and the request of a filtered search. *)
Definition capital_upload : list UploadFile := [mkUploadFile (Some "REPORT.PDF") "%PDF"].


End Cases.

(** * Properties *)

(** ** The monad and the round trips *)

Lemma round_trip_fault {A : Type} (serve : list PointStruct -> Result A * list PointStruct)
    (w : World) (e : Exn) (fs : list (option Exn)) :
  faults w = Some e :: fs ->
  round_trip serve w = (Raise e, mkWorld (points w) fs (log w) (next_uuid w)).
Proof. intros Hf. unfold round_trip. by rewrite Hf. Qed.

Lemma round_trip_faults {A : Type} (serve : list PointStruct -> Result A * list PointStruct)
    (w : World) :
  faults (round_trip serve w).2 = tail (faults w).
Proof.
  unfold round_trip. destruct (faults w) as [|[e|] fs]; simpl; try done;
    by destruct (serve (points w)).
Qed.

Lemma round_trip_log {A : Type} (serve : list PointStruct -> Result A * list PointStruct)
    (w : World) :
  log (round_trip serve w).2 = log w.
Proof.
  unfold round_trip. destruct (faults w) as [|[e|] fs]; simpl; try done;
    by destruct (serve (points w)).
Qed.

Lemma round_trip_read_points {A : Type} (serve : list PointStruct -> Result A) (w : World) :
  points (round_trip (fun pts => (serve pts, pts)) w).2 = points w.
Proof. unfold round_trip. by destruct (faults w) as [|[e|] fs]. Qed.

(** ** GET /health/ *)

(** C8: in every state of the store, of its availability and of the log,
    the health check answers the body [{"status": "healthy"}] and leaves the
    state as it was. *)
Theorem health_check_always_healthy (w : World) :
  MainFastapi.health_check w = (Ok {[ "status" := "healthy" ]}, w)
  /\ MainFastapi.status_of (MainFastapi.health_check w).1 = 200%Z.
Proof. split; reflexivity. Qed.

(** ** Failures of a search *)

Section SearchFailures.

Variable dense_sim : DenseVector -> DenseVector -> Q.
Variable sparse_sim : SparseVector -> SparseVector -> Q.
Variable rrf_k : nat.

(** C5: an exception of an embedding or of the round trip to the store is
    what [query_hybrid_search] raises, unchanged: no list of passages is
    returned. There is no second attempt: the store has been contacted at
    most once, whatever the next round trip would have answered. *)
Theorem query_hybrid_search_propagates (self : HybridSearch) (query : string)
    (metadata_filter : option Filter) (limit : nat) (w : World) (e : Exn) :
  retrieval_fails dense_sim sparse_sim rrf_k self query metadata_filter limit w e ->
  let r := query_hybrid_search dense_sim sparse_sim rrf_k self query metadata_filter limit w in
  r.1 = Raise e
  /\ (faults r.2 = faults w \/ faults r.2 = tail (faults w))
  /\ points r.2 = points w
  /\ log r.2 = log w.
Proof.
  intros Hfail. unfold query_hybrid_search, bind, lift. simpl.
  destruct Hfail as [Hd | d Hd Hs | d s Hd Hs Hq].
  - rewrite Hd. simpl. auto.
  - rewrite Hd, Hs. simpl. auto.
  - rewrite Hd, Hs.
    pose proof (round_trip_faults
      (fun pts => (serve_query dense_sim sparse_sim rrf_k
                     (hybrid_request d s metadata_filter limit) pts, pts)) w) as Hf.
    pose proof (round_trip_read_points
      (serve_query dense_sim sparse_sim rrf_k
                     (hybrid_request d s metadata_filter limit)) w) as Hp.
    pose proof (round_trip_log
      (fun pts => (serve_query dense_sim sparse_sim rrf_k
                     (hybrid_request d s metadata_filter limit) pts, pts)) w) as Hl.
    unfold query_points in *.
    destruct (round_trip _ w) as [[res|e'] w'] eqn:Hrt; simpl in *.
    + discriminate.
    + inversion Hq; subst. auto.
Qed.

(** C6: when the hybrid search raises, [search_documents] returns the empty
    list and writes the error to the log; when it returns, [search_documents]
    returns its list and writes nothing. *)
Theorem search_documents_never_raises (self : Main.DocumentStats) (query_text : string)
    (limit : nat) (w : World) :
  let r := query_hybrid_search dense_sim sparse_sim rrf_k
             (Main.hybrid_search self) query_text None limit w in
  let r' := Main.search_documents dense_sim sparse_sim rrf_k self query_text limit w in
  (forall e, r.1 = Raise e ->
     r'.1 = Ok []
     /\ log r'.2 = (log r.2 ++ ["Error searching documents: " +:+ str_exn e])%list
     /\ points r'.2 = points r.2 /\ faults r'.2 = faults r.2)
  /\ (forall docs, r.1 = Ok docs -> r' = (Ok docs, r.2)).
Proof.
  simpl. unfold Main.search_documents, try_except.
  destruct (query_hybrid_search _ _ _ _ _ _ _ w) as [[docs|e] w'] eqn:Hr; simpl.
  - split; [discriminate | intros ? [= <-]; reflexivity].
  - split; [intros ? [= <-]; auto | discriminate].
Qed.

End SearchFailures.

(** ** Failures of the document summary *)

Section SummaryFailures.

Variable set_iter : list PyVal -> list PyVal.

(** C9: when fetching the points or building the summary raises,
    [get_indexed_documents] returns the empty mapping and writes the error
    to the log; nothing of the summary built so far is returned. *)
Theorem get_indexed_documents_on_error (self : Main.DocumentStats) (w : World) (e : Exn) :
  fetch_fails set_iter w e ->
  let r := Main.get_indexed_documents set_iter self w in
  r.1 = Ok []
  /\ log r.2 = (log w ++ ["Error fetching documents: " +:+ str_exn e])%list
  /\ points r.2 = points w.
Proof.
  intros Hfail.
  pose proof (round_trip_read_points
    (serve_scroll Main.COLLECTION_NAME 10000 true) w) as Hp.
  pose proof (round_trip_log
    (fun pts => (serve_scroll Main.COLLECTION_NAME 10000 true pts, pts)) w) as Hl.
  unfold Main.get_indexed_documents, try_except, Main.fetch_documents, bind, lift.
  destruct Hfail as [Hs | resp Hs Hscan | resp docs Hs Hscan Hsort];
    unfold scroll in *;
    destruct (round_trip _ w) as [[response|e'] w'] eqn:Hrt; simpl in *;
    try discriminate; injection Hs as <-.
  - simpl. rewrite Hl, Hp. auto.
  - rewrite Hscan. simpl. rewrite Hl, Hp. auto.
  - rewrite Hscan. simpl. rewrite Hsort. simpl. rewrite Hl, Hp. auto.
Qed.

(** Without an exception the summary is returned whole, and nothing is
    logged. *)
Lemma get_indexed_documents_on_success (self : Main.DocumentStats) (w w' : World)
    (documents : Main.Documents) :
  Main.fetch_documents set_iter w = (Ok documents, w') ->
  Main.get_indexed_documents set_iter self w = (Ok documents, w').
Proof. intros H. unfold Main.get_indexed_documents, try_except. by rewrite H. Qed.

End SummaryFailures.

(** ** POST /index/ *)

Section IndexEndpoint.

Import MainFastapi.

Variable indexing : IndexingModule.
Variable write_file :
  list (string * string) -> string -> string -> Result (list (string * string)).

Lemma save_files_rejects (files : list UploadFile) (temp_dir : list (string * string))
    (f : UploadFile) (name : string) :
  f ∈ files -> filename f = Some name -> endswith (lower name) ".pdf" = false ->
  exists e, save_files write_file temp_dir files = Raise e.
Proof.
  intros Hin Hname Hsuffix. revert temp_dir.
  induction files as [|g rest IH]; intros temp_dir.
  - by apply elem_of_nil in Hin.
  - simpl. destruct (filename g) as [gname|] eqn:Hg; [|eauto].
    destruct (endswith (lower gname) ".pdf") eqn:Hpdf; simpl; [|eauto].
    apply elem_of_cons in Hin as [-> | Hin].
    + congruence.
    + destruct (write_file temp_dir gname (file g)); simpl; eauto.
Qed.

(** The first file that is not a PDF, after files that are saved, raises
    the [HTTPException] with status 400 inside the [try]. *)
Lemma save_files_raises_400 (name : string) (content : string)
    (temp_dir : list (string * string)) (rest : list UploadFile) :
  endswith (lower name) ".pdf" = false ->
  save_files write_file temp_dir (mkUploadFile (Some name) content :: rest)
  = Raise (HTTPException 400 ("File " +:+ name +:+ " is not a PDF")).
Proof. intros H. simpl. by rewrite H. Qed.

(** C4, on the code: where the claim has status 400, the answer has status
    500. A file that is not a PDF, or a failure of the document processing,
    raises the [HTTPException] with status 400 inside the [try], and its
    [except Exception] catches it and raises one with status 500. *)
Theorem index_documents_validation_answers_500 (files : list UploadFile) (w : World) :
  (exists f name, f ∈ files /\ filename f = Some name
                  /\ endswith (lower name) ".pdf" = false)
  \/ (exists temp_dir nodes error w1,
        save_files write_file [] files = Ok temp_dir
        /\ process_documents indexing temp_dir w = (Ok (nodes, error), w1)
        /\ truthy error = true) ->
  status_of (index_documents indexing write_file files w).1 = 500%Z.
Proof.
  intros [(f & name & Hin & Hname & Hsuffix) | (temp_dir & nodes & error & w1 & Hsave & Hproc & Herr)];
    unfold index_documents, try_except, bind, lift, raise.
  - destruct (save_files_rejects files [] f name Hin Hname Hsuffix) as [e ->].
    reflexivity.
  - rewrite Hsave, Hproc. simpl. rewrite Herr. reflexivity.
Qed.

(** The other two cases of C4 hold: a failed batch answers 500, and full
    success answers the body with the number of chunks. *)
Lemma index_documents_batch_failure_and_success (files : list UploadFile) (w w1 w2 w3 : World)
    (temp_dir : list (string * string)) (nodes : list Indexing.Node) (error : option string)
    (sample : string) (ok : bool) :
  save_files write_file [] files = Ok temp_dir ->
  process_documents indexing temp_dir w = (Ok (nodes, error), w1) ->
  truthy error = false ->
  first_text nodes = Ok sample ->
  setup_collection indexing sample w1 = (Ok tt, w2) ->
  indexer_index_documents indexing nodes w2 = (Ok ok, w3) ->
  let r := index_documents indexing write_file files w in
  (ok = false -> status_of r.1 = 500%Z)
  /\ (ok = true ->
      r.1 = Ok (mkProcessingResponse true "Documents processed and indexed successfully"
                  (Some (length nodes)))).
Proof.
  intros Hsave Hproc Herr Hfirst Hsetup Hindex.
  unfold index_documents, try_except, bind, lift, raise.
  rewrite Hsave, Hproc. simpl. rewrite Herr, Hfirst, Hsetup, Hindex.
  split; intros ->; reflexivity.
Qed.

End IndexEndpoint.

(** ** The stable sort *)

Section StableSort.

Context {A : Type}.
Variable le : A -> A -> bool.

Lemma insert_by_perm (x : A) (l : list A) : insert_by le x l ≡ₚ x :: l.
Proof.
  induction l as [|y l IH]; simpl; [done|].
  destruct (le x y); [done|].
  rewrite IH. apply Permutation_swap.
Qed.

Lemma sort_by_perm (l : list A) : sort_by le l ≡ₚ l.
Proof.
  induction l as [|x l IH]; simpl; [done|].
  unfold sort_by in *. simpl. rewrite insert_by_perm. by rewrite IH.
Qed.

Lemma sort_by_elem_of (x : A) (l : list A) : x ∈ sort_by le l <-> x ∈ l.
Proof. by rewrite sort_by_perm. Qed.

Hypothesis le_total : forall x y, le x y = true \/ le y x = true.
Hypothesis le_trans : forall x y z, le x y = true -> le y z = true -> le x z = true.

Lemma insert_by_sorted (x : A) (l : list A) :
  StronglySorted (fun a b => le a b = true) l ->
  StronglySorted (fun a b => le a b = true) (insert_by le x l).
Proof.
  induction 1 as [|y l Hsorted IH Hall]; simpl.
  - repeat constructor.
  - destruct (le x y) eqn:Hxy.
    + constructor; [by constructor|].
      constructor; [done|].
      eapply Forall_impl; [exact Hall|]. intros z Hz. by eapply le_trans.
    + constructor; [done|].
      rewrite insert_by_perm. constructor; [|done].
      destruct (le_total x y); congruence.
Qed.

Lemma sort_by_sorted (l : list A) :
  StronglySorted (fun a b => le a b = true) (sort_by le l).
Proof.
  induction l as [|x l IH]; [constructor|].
  unfold sort_by in *. simpl. by apply insert_by_sorted.
Qed.

End StableSort.

(** Stability, for a class of elements that compare equal: the sort leaves
    them in the order they had. *)
Lemma sort_by_stable {A : Type} (le : A -> A -> bool) (P : A -> bool) (l : list A) :
  (forall x y, P x = true -> P y = true -> le x y = true) ->
  filter (fun x => P x = true) (sort_by le l) = filter (fun x => P x = true) l.
Proof.
  intros Heq.
  assert (Hins : forall x s,
    filter (fun x => P x = true) (insert_by le x s)
    = filter (fun x => P x = true) (x :: s)).
  { intros x s. induction s as [|y s IH]; simpl; [done|].
    destruct (le x y) eqn:Hxy; [done|].
    rewrite filter_cons, IH, !filter_cons.
    destruct (decide (P y = true)) as [Hy|Hy];
      destruct (decide (P x = true)) as [Hx|Hx]; try done.
    rewrite (Heq x y Hx Hy) in Hxy. discriminate. }
  induction l as [|x l IH]; [done|].
  unfold sort_by in *. simpl. rewrite Hins, !filter_cons, IH. done.
Qed.

Lemma StronglySorted_impl {A : Type} (R1 R2 : A -> A -> Prop) (l : list A) :
  (forall a b, R1 a b -> R2 a b) -> StronglySorted R1 l -> StronglySorted R2 l.
Proof.
  intros Himpl. induction 1 as [|x l Hsorted IH Hall]; constructor; [done|].
  eapply Forall_impl; [exact Hall|]. intros; by apply Himpl.
Qed.

Lemma StronglySorted_lookup {A : Type} (R : A -> A -> Prop) (l : list A) (i j : nat) (a b : A) :
  StronglySorted R l -> (i < j)%nat -> l !! i = Some a -> l !! j = Some b -> R a b.
Proof.
  intros Hsorted. revert i j.
  induction Hsorted as [|x l Hsorted IH Hall]; intros i j Hij Hi Hj.
  - by rewrite lookup_nil in Hi.
  - destruct j as [|j]; [lia|]. simpl in Hj.
    destruct i as [|i]; simpl in Hi.
    + injection Hi as ->. rewrite Forall_forall in Hall.
      apply Hall. by eapply list_elem_of_lookup_2.
    + eapply IH; [|done..]. lia.
Qed.


Section SummaryInvariant.

Import Main SummarySpec.

Lemma contains_elem_of (documents : Documents) (key : PyVal) :
  contains documents key = true <-> key ∈ map fst documents.
Proof.
  unfold contains. rewrite existsb_exists. split.
  - intros (kv & Hin & Hk). apply bool_decide_eq_true in Hk. subst.
    apply list_elem_of_In in Hin. by apply list_elem_of_fmap_2.
  - intros Hin. apply list_elem_of_fmap in Hin as (kv & -> & Hin).
    exists kv. split; [by apply list_elem_of_In | by apply bool_decide_eq_true].
Qed.

Lemma update_keys (key : PyVal) (f : Document -> Document) (documents : Documents) :
  map fst (update key f documents) = map fst documents.
Proof.
  induction documents as [|[k d] rest IH]; simpl; [done|].
  case_bool_decide; simpl; [done | by rewrite IH].
Qed.

Lemma update_elem_of (key : PyVal) (f : Document -> Document) (documents : Documents)
    (k : PyVal) (d' : Document) :
  NoDup (map fst documents) ->
  (k, d') ∈ update key f documents ->
  (k <> key /\ (k, d') ∈ documents)
  \/ (k = key /\ exists d, (key, d) ∈ documents /\ d' = f d).
Proof.
  induction documents as [|[k0 d0] rest IH]; simpl; intros Hnodup Hin.
  - by apply elem_of_nil in Hin.
  - apply NoDup_cons in Hnodup as [Hfresh Hnodup].
    case_bool_decide as Hk0; subst.
    + apply elem_of_cons in Hin as [[= -> ->] | Hin].
      * right. split; [done|]. exists d0. split; [left | done].
      * left. split; [|by right].
        intros ->. apply Hfresh. by apply (list_elem_of_fmap_2 fst) in Hin.
    + apply elem_of_cons in Hin as [[= -> ->] | Hin].
      * left. split; [done | left].
      * destruct (IH Hnodup Hin) as [[Hne Hin'] | [-> (d & Hin' & ->)]].
        -- left. split; [done | by right].
        -- right. split; [done|]. exists d. split; [by right | done].
Qed.

Lemma labels_of_app (fname : PyVal) (rs1 rs2 : list Record_) :
  labels_of fname (rs1 ++ rs2) = (labels_of fname rs1 ++ labels_of fname rs2)%list.
Proof. apply omap_app. Qed.

Lemma spec_text_chunks_app (fname : PyVal) (rs1 rs2 : list Record_) :
  spec_text_chunks fname (rs1 ++ rs2)
  = (spec_text_chunks fname rs1 ++ spec_text_chunks fname rs2)%list.
Proof. apply omap_app. Qed.

Lemma encounter_order_snoc (l : list PyVal) (x : PyVal) :
  encounter_order (l ++ [x]) = set_add x (encounter_order l).
Proof. unfold encounter_order. by rewrite foldl_app. Qed.

Lemma encounter_order_NoDup (l : list PyVal) : NoDup (encounter_order l).
Proof.
  induction l as [|x l IH] using rev_ind; [constructor|].
  rewrite encounter_order_snoc. unfold set_add.
  case_bool_decide as Hx; [done|].
  apply NoDup_app. split_and!; [done | | apply NoDup_singleton].
  intros y Hy Hy'. apply list_elem_of_singleton in Hy'. by subst.
Qed.

(** A file that is not in the summary has no point among those scanned. *)
Lemma absent_file_has_no_point (fname : PyVal) (keys : list PyVal) (rs : list Record_) :
  (forall r m, r ∈ rs -> rec_payload r = Some m -> file_name_of m ∈ keys) ->
  fname ∉ keys ->
  labels_of fname rs = [] /\ spec_text_chunks fname rs = [].
Proof.
  intros Hkeys Hfresh. induction rs as [|r rs IH]; [done|].
  destruct IH as [IH1 IH2].
  { intros r' m Hin. apply Hkeys. by right. }
  change (r :: rs) with ([r] ++ rs)%list.
  rewrite labels_of_app, spec_text_chunks_app, IH1, IH2, !app_nil_r.
  unfold labels_of, spec_text_chunks. simpl.
  destruct (rec_payload r) as [m|] eqn:Hm; [|done].
  case_bool_decide as Hf; [|done].
  exfalso. apply Hfresh. rewrite <- Hf. eapply Hkeys; [left | done].
Qed.


(** [s[:n]] is the first [n] characters of [s], and [s[n:]] the rest. *)
Lemma slice_to_prefix (n : nat) (s : string) :
  (n <= len s)%nat ->
  len (slice_to n s) = n /\ s = slice_to n s +:+ slice_from n s.
Proof.
  unfold len. revert s. induction n as [|n IH]; intros s Hlen.
  - by destruct s.
  - destruct s as [|c s]; simpl in *; [lia|].
    destruct (IH s) as [IH1 IH2]; [lia|].
    rewrite IH1. split; [done|]. change (String c s = String c (slice_to n s +:+ slice_from n s)).
    by rewrite <- IH2.
Qed.

Lemma preview_spec (t : PyVal) (p : string) :
  preview t = Ok p -> exists s, t = PStr s /\ p = spec_preview s.
Proof.
  destruct t as [|s|z]; simpl; [done| |done].
  intros [= <-]. exists s. split; [done|]. unfold spec_preview.
  destruct (Nat.ltb_spec 200 (len s)); case_bool_decide; (done || lia).
Qed.

Lemma add_point_summary (documents documents' : Documents) (rs : list Record_) (r : Record_) :
  summary_of documents rs ->
  add_point documents r = Ok documents' ->
  summary_of documents' (rs ++ [r]).
Proof.
  intros (Hnodup & Hkeys & Hdocs). unfold add_point.
  destruct (rec_payload r) as [m|] eqn:Hm; [|done].
  fold (file_name_of m).
  set (fresh := mkDocument [] _ _ _ _ _ []).
  set (documents1 := if contains documents (file_name_of m) then documents
                     else (documents ++ [(file_name_of m, fresh)])%list).
  assert (H1 : summary_of documents1 rs /\ file_name_of m ∈ map fst documents1).
  { subst documents1. destruct (contains documents (file_name_of m)) eqn:Hc.
    - split; [done | by apply contains_elem_of].
    - assert (Hfresh : file_name_of m ∉ map fst documents).
      { intros Hin. apply contains_elem_of in Hin. congruence. }
      split; [|rewrite map_app; apply elem_of_app; right; simpl; left].
      split_and!.
      + rewrite map_app. simpl. apply NoDup_app. split_and!; [done | | apply NoDup_singleton].
        intros k Hk Hk'. apply list_elem_of_singleton in Hk'. by subst.
      + intros r' m' Hin Hm'. rewrite map_app. apply elem_of_app. left. eauto.
      + intros fname d Hin. apply elem_of_app in Hin as [Hin | Hin]; [eauto|].
        apply list_elem_of_singleton in Hin as [= -> ->].
        destruct (absent_file_has_no_point (file_name_of m) _ rs Hkeys Hfresh) as [-> ->].
        done. }
  clearbody documents1. clear Hnodup Hkeys Hdocs.
  destruct H1 as ((Hnodup & Hkeys & Hdocs) & Hfile).
  set (add_label := fun d : Document =>
         match m !! "page_label" with
         | Some label => mkDocument (set_add label (pages d)) (file_path d) (file_type d)
                           (file_size d) (creation_date d) (last_modified_date d)
                           (text_chunks d)
         | None => d
         end).
  set (documents2 := match m !! "page_label" with
                     | Some label => update (file_name_of m) _ documents1
                     | None => documents1
                     end).
  assert (H2 : NoDup (map fst documents2)
               /\ map fst documents2 = map fst documents1
               /\ forall fname d, (fname, d) ∈ documents2 ->
                    (fname <> file_name_of m /\ (fname, d) ∈ documents1)
                    \/ (fname = file_name_of m
                        /\ exists d0, (fname, d0) ∈ documents1 /\ d = add_label d0)).
  { subst documents2 add_label. destruct (m !! "page_label") as [label|].
    - rewrite update_keys. split_and!; [done..|].
      intros fname d Hin. apply update_elem_of in Hin; [|done].
      destruct Hin as [? | [-> ?]]; [by left | by right].
    - split_and!; [done..|]. intros fname d Hin.
      destruct (decide (fname = file_name_of m)) as [->|Hne]; [right | by left].
      split; [done|]. by exists d. }
  clearbody documents2. destruct H2 as (Hnodup2 & Hkeys2 & Hdocs2).
  intros Hres.
  assert (Hlabels : forall fname,
    labels_of fname (rs ++ [r])
    = (labels_of fname rs ++
       (if bool_decide (file_name_of m = fname)
        then match m !! "page_label" with Some l => [l] | None => [] end
        else []))%list).
  { intros fname. rewrite labels_of_app. f_equal.
    unfold labels_of. simpl. rewrite Hm.
    case_bool_decide; [|done]. by destruct (m !! "page_label"). }
  assert (Hpages : forall fname d, (fname, d) ∈ documents2 ->
    pages d = encounter_order (labels_of fname (rs ++ [r]))
    /\ text_chunks d = spec_text_chunks fname rs).
  { intros fname d Hin. rewrite Hlabels.
    destruct (Hdocs2 fname d Hin) as [[Hne Hin1] | [-> (d0 & Hin1 & ->)]].
    - rewrite bool_decide_eq_false_2 by done. rewrite app_nil_r. eauto.
    - rewrite bool_decide_eq_true_2 by done.
      destruct (Hdocs _ _ Hin1) as [Hp Ht]. subst add_label. simpl.
      destruct (m !! "page_label") as [label|]; simpl.
      + rewrite encounter_order_snoc, <- Hp. done.
      + rewrite app_nil_r. done. }
  assert (Hkeys' : forall r' m', r' ∈ (rs ++ [r])%list -> rec_payload r' = Some m' ->
                     file_name_of m' ∈ map fst documents2).
  { intros r' m' Hin Hm'. rewrite Hkeys2.
    apply elem_of_app in Hin as [Hin | Hin]; [eauto|].
    apply list_elem_of_singleton in Hin as ->. congruence. }
  assert (Hchunks : forall fname,
    spec_text_chunks fname (rs ++ [r])
    = (spec_text_chunks fname rs ++
       (if bool_decide (file_name_of m = fname)
        then match m !! "text" with
             | Some (PStr s) => [mkTextChunk (get m "page_label" PNone) (spec_preview s)]
             | _ => []
             end
        else []))%list).
  { intros fname. rewrite spec_text_chunks_app. f_equal.
    unfold spec_text_chunks. simpl. rewrite Hm.
    case_bool_decide; [|done]. by destruct (m !! "text") as [[]|]. }
  destruct (m !! "text") as [t|] eqn:Ht.
  - destruct (preview t) as [p|e] eqn:Hp; simpl in Hres; [|done].
    injection Hres as <-.
    apply preview_spec in Hp as (s & -> & ->).
    split_and!.
    + by rewrite update_keys.
    + intros r' m' Hin Hm'. rewrite update_keys. eauto.
    + intros fname d Hin. rewrite Hchunks.
      apply update_elem_of in Hin; [|done].
      destruct Hin as [[Hne Hin] | [-> (d0 & Hin & ->)]].
      * rewrite bool_decide_eq_false_2 by done. rewrite app_nil_r. eauto.
      * rewrite bool_decide_eq_true_2 by done. simpl.
        destruct (Hpages _ _ Hin) as [-> ->]. done.
  - injection Hres as <-.
    split_and!; [done..|].
    intros fname d Hin. rewrite Hchunks.
    destruct (Hpages _ _ Hin) as [-> ->].
    case_bool_decide; by rewrite app_nil_r.
Qed.

Lemma scan_summary (rest : list Record_) (documents documents' : Documents)
    (rs : list Record_) :
  summary_of documents rs ->
  scan documents rest = Ok documents' ->
  summary_of documents' (rs ++ rest).
Proof.
  revert documents rs. induction rest as [|r rest IH]; simpl; intros documents rs Hsum Hscan.
  - injection Hscan as <-. by rewrite app_nil_r.
  - destruct (add_point documents r) as [documents1|e] eqn:Hadd; simpl in Hscan; [|done].
    replace (rs ++ r :: rest)%list with ((rs ++ [r]) ++ rest)%list
      by (by rewrite <- app_assoc).
    eapply IH; [|done]. by eapply add_point_summary.
Qed.

Lemma scan_from_empty (rs : list Record_) (documents : Documents) :
  scan [] rs = Ok documents -> summary_of documents rs.
Proof.
  intros Hscan. apply (scan_summary rs [] documents []); [|done].
  split_and!; [constructor | | ].
  - intros r m Hin. by apply elem_of_nil in Hin.
  - intros fname d Hin. by apply elem_of_nil in Hin.
Qed.

End SummaryInvariant.

(** ** The page labels and the previews of the summary *)

Section SummaryOrder.

Import Main SummarySpec.

Lemma rmap_Forall2 {A B : Type} (f : A -> Result B) (l : list A) (l' : list B) :
  rmap f l = Ok l' -> Forall2 (fun x y => f x = Ok y) l l'.
Proof.
  revert l'. induction l as [|x l IH]; simpl; intros l' H.
  - injection H as <-. constructor.
  - destruct (f x) as [y|e] eqn:Hx; simpl in H; [|done].
    destruct (rmap f l) as [ys|e] eqn:Hl; simpl in H; [|done].
    injection H as <-. constructor; [done | by apply IH].
Qed.

Lemma page_key_numeric_value (x : PyVal) (k : SortKey) :
  page_key x = Ok k ->
  numeric_value x = match k with KInt n => Some n | KInf => None end.
Proof.
  destruct x as [|s|z]; simpl; [done| |done].
  destruct (isdigit s); [|by intros [= <-]].
  destruct (int s) as [n|e]; simpl; [by intros [= <-] | done].
Qed.


Lemma key_le_total (a b : SortKey) : key_le a b = true \/ key_le b a = true.
Proof.
  destruct a as [x|], b as [y|]; simpl; auto.
  destruct (N.leb_spec x y); [by left|]. right. apply N.leb_le. lia.
Qed.

Lemma key_le_trans (a b c : SortKey) :
  key_le a b = true -> key_le b c = true -> key_le a c = true.
Proof.
  destruct a as [x|], b as [y|], c as [z|]; simpl; try done.
  rewrite !N.leb_le. lia.
Qed.

Lemma filter_non_numeric_decorated (dl : list (SortKey * PyVal)) :
  Forall (fun kx => page_key kx.2 = Ok kx.1) dl ->
  filter (fun x => non_numeric x = true) (map snd dl)
  = map snd (filter (fun kx => is_inf kx.1 = true) dl).
Proof.
  induction 1 as [|[k x] dl Hk Hall IH]; [done|].
  simpl in Hk. simpl map at 1. rewrite !filter_cons, IH.
  unfold non_numeric. rewrite (page_key_numeric_value x k Hk).
  destruct k; simpl; repeat case_decide; done.
Qed.

(** What [sorted] with the key of the page labels returns. *)
Lemma sorted_page_labels (l l' : list PyVal) :
  sorted page_key key_le l = Ok l' ->
  l' ≡ₚ l
  /\ numeric_first_ascending l'
  /\ filter (fun x => non_numeric x = true) l' = filter (fun x => non_numeric x = true) l.
Proof.
  unfold sorted.
  destruct (rmap _ l) as [dl|e] eqn:Hdl; simpl; [|done].
  intros [= <-].
  apply rmap_Forall2 in Hdl.
  assert (Hsnd : map snd dl = l /\ Forall (fun kx => page_key kx.2 = Ok kx.1) dl).
  { induction Hdl as [|x kx l dl Hx Hall [IH1 IH2]]; [done|].
    destruct (page_key x) as [k|e] eqn:Hk; simpl in Hx; [|done].
    injection Hx as <-. simpl. split; [by rewrite IH1 | by constructor]. }
  destruct Hsnd as [Hsnd Hkeys].
  set (le' := fun a b : SortKey * PyVal => key_le a.1 b.1).
  assert (Hkeys' : Forall (fun kx => page_key kx.2 = Ok kx.1) (sort_by le' dl)).
  { by rewrite sort_by_perm. }
  split_and!.
  - rewrite <- Hsnd. apply Permutation_map, sort_by_perm.
  - intros i j a b n Hij Hi Hj Hn.
    change (map snd (sort_by le' dl) !! i = Some a) in Hi.
    change (map snd (sort_by le' dl) !! j = Some b) in Hj.
    rewrite list_lookup_fmap in Hi, Hj.
    destruct (sort_by le' dl !! i) as [[ka a']|] eqn:Hi'; [|done].
    destruct (sort_by le' dl !! j) as [[kb b']|] eqn:Hj'; [|done].
    simpl in Hi, Hj. injection Hi as ->. injection Hj as ->.
    pose proof (StronglySorted_lookup _ _ i j _ _
      (sort_by_sorted le'
         (fun x y => key_le_total x.1 y.1)
         (fun x y z => key_le_trans x.1 y.1 z.1) dl) Hij Hi' Hj') as Hle.
    rewrite Forall_forall in Hkeys'.
    pose proof (Hkeys' _ (list_elem_of_lookup_2 _ _ _ Hi')) as Ha.
    pose proof (Hkeys' _ (list_elem_of_lookup_2 _ _ _ Hj')) as Hb.
    simpl in Ha, Hb, Hle.
    rewrite (page_key_numeric_value _ _ Hb) in Hn.
    rewrite (page_key_numeric_value _ _ Ha).
    destruct kb as [y|]; [|done]. injection Hn as ->.
    destruct ka as [x|]; [|done].
    exists x. split; [done|]. by apply N.leb_le.
  - rewrite (filter_non_numeric_decorated _ Hkeys').
    rewrite (sort_by_stable le' (fun kx => is_inf kx.1)).
    + by rewrite <- (filter_non_numeric_decorated _ Hkeys), Hsnd.
    + intros [[]] [[]]; simpl; done.
Qed.

Variable set_iter : list PyVal -> list PyVal.

Lemma sort_pages_entries (documents documents' : Documents) (fname : PyVal) (doc : Document) :
  rmap (sort_pages set_iter) documents = Ok documents' ->
  (fname, doc) ∈ documents' ->
  exists d, (fname, d) ∈ documents
            /\ sorted page_key key_le (set_iter (pages d)) = Ok (pages doc)
            /\ text_chunks doc = text_chunks d.
Proof.
  intros Hsort Hin. apply rmap_Forall2 in Hsort.
  induction Hsort as [|[k d] kv' documents documents' Hkv Hall IH].
  - by apply elem_of_nil in Hin.
  - apply elem_of_cons in Hin as [Heq | Hin].
    + subst kv'. unfold sort_pages in Hkv. simpl in Hkv.
      destruct (sorted page_key key_le (set_iter (pages d))) as [l|e] eqn:Hl;
        simpl in Hkv; [|done].
      injection Hkv as -> <-. exists d. split_and!; [left | done..].
    + destruct (IH Hin) as (d0 & Hin0 & H0). exists d0. split; [by right | done].
Qed.

Lemma scroll_scanned (w w1 : World) (response : list Record_ * option nat) :
  scroll COLLECTION_NAME 10000 true w = (Ok response, w1) ->
  response.1 = scanned w.
Proof.
  unfold scroll, round_trip, serve_scroll.
  change (negb (String.eqb COLLECTION_NAME stored_collection)) with false.
  cbv iota. unfold scanned, to_record.
  destruct (faults w) as [|[e|] fs]; intros [= <- _]; done.
Qed.

(** A summary that is returned is the one the scan of the points gives. *)
Lemma get_indexed_documents_entries (self : DocumentStats) (w w' : World)
    (documents : Documents) (fname : PyVal) (doc : Document) :
  get_indexed_documents set_iter self w = (Ok documents, w') ->
  (fname, doc) ∈ documents ->
  exists d,
    sorted page_key key_le (set_iter (pages d)) = Ok (pages doc)
    /\ text_chunks doc = text_chunks d
    /\ pages d = encounter_order (labels_of fname (scanned w))
    /\ text_chunks d = spec_text_chunks fname (scanned w).
Proof.
  unfold get_indexed_documents, try_except, fetch_documents, bind, lift.
  destruct (scroll COLLECTION_NAME 10000 true w) as [[response|e] w1] eqn:Hscroll.
  - apply scroll_scanned in Hscroll.
    destruct (scan [] response.1) as [scanned_docs|e] eqn:Hscan; simpl.
    + destruct (rmap (sort_pages set_iter) scanned_docs) as [sorted_docs|e] eqn:Hsort.
      * intros [= <- <-] Hin.
        destruct (sort_pages_entries _ _ _ _ Hsort Hin) as (d & Hd & Hp & Ht).
        apply scan_from_empty in Hscan as (_ & _ & Hsum).
        rewrite Hscroll in Hsum. destruct (Hsum _ _ Hd) as [Hp' Ht'].
        exists d. done.
      * intros [= <- <-] Hin. by apply elem_of_nil in Hin.
    + intros [= <- <-] Hin. by apply elem_of_nil in Hin.
  - simpl. intros [= <- <-] Hin. by apply elem_of_nil in Hin.
Qed.

(** C7, as amended: in the summary of every file the page labels are those
    of the points of the file, once each; the labels that are strings of
    decimal digits come first, ascending by integer value, and the other
    labels follow them, in the order in which Python iterates the set of
    labels. *)
Theorem pages_sorted_by_comparator (self : DocumentStats) (w w' : World)
    (documents : Documents) (fname : PyVal) (doc : Document) :
  iterates_sets set_iter ->
  get_indexed_documents set_iter self w = (Ok documents, w') ->
  (fname, doc) ∈ documents ->
  pages doc ≡ₚ encounter_order (labels_of fname (scanned w))
  /\ numeric_first_ascending (pages doc)
  /\ filter (fun x => non_numeric x = true) (pages doc)
     = filter (fun x => non_numeric x = true)
         (set_iter (encounter_order (labels_of fname (scanned w)))).
Proof.
  intros Hiter Hget Hin.
  destruct (get_indexed_documents_entries self w w' documents fname doc Hget Hin)
    as (d & Hsorted & _ & Hpages & _).
  apply sorted_page_labels in Hsorted as (Hperm & Hasc & Hstable).
  rewrite Hpages in *.
  split_and!; [|done..].
  rewrite Hperm. apply Hiter, encounter_order_NoDup.
Qed.

(** What the code cuts is the preview the claim describes. *)
Lemma spec_preview_cut (s : string) : cut_to_200 s (spec_preview s).
Proof.
  unfold cut_to_200, spec_preview, len. case_bool_decide as Hlen; [by left|].
  right. split; [lia|].
  destruct (slice_to_prefix 200 s) as [Hprefix Hsplit]; [unfold len; lia|].
  exists (slice_to 200 s), (slice_from 200 s). done.
Qed.

Lemma spec_text_chunks_previews (fname : PyVal) (rs : list Record_) :
  previews_of (texts_of fname rs) (spec_text_chunks fname rs).
Proof.
  unfold previews_of, texts_of, spec_text_chunks.
  induction rs as [|r rs IH]; [constructor|].
  simpl. destruct (rec_payload r) as [m|]; [|done].
  unfold file_name_of, get. case_bool_decide; [|done].
  destruct (m !! "text") as [[|s|z]|]; try done.
  constructor; [|done]. split; [done | apply spec_preview_cut].
Qed.

(** C10: in the summary of every file the previews are, in the order of the
    points, one for each point of the file that has a text, and none for a
    point without one: the text itself when it has at most 200 characters,
    and else the 200 characters the text begins with, followed by three
    dots. *)
Theorem text_chunks_are_previews (self : DocumentStats) (w w' : World)
    (documents : Documents) (fname : PyVal) (doc : Document) :
  get_indexed_documents set_iter self w = (Ok documents, w') ->
  (fname, doc) ∈ documents ->
  previews_of (texts_of fname (scanned w)) (text_chunks doc).
Proof.
  intros Hget Hin.
  destruct (get_indexed_documents_entries self w w' documents fname doc Hget Hin)
    as (d & _ & Ht & _ & Ht').
  rewrite Ht, Ht'. apply spec_text_chunks_previews.
Qed.

End SummaryOrder.

(** ** The metadata filter of a search *)


Lemma check_file_name_filter (name : string) (pl : option Payload) :
  check_filter (file_name_filter name) pl = true ->
  exists m, pl = Some m /\ m !! "file_name" = Some (PStr name).
Proof.
  unfold check_filter, file_name_filter. simpl.
  destruct pl as [m|]; simpl; [|done].
  rewrite !andb_true_r. intros H%bool_decide_eq_true. eauto.
Qed.

Section FilteredSearch.

Variable dense_sim : DenseVector -> DenseVector -> Q.
Variable sparse_sim : SparseVector -> SparseVector -> Q.
Variable rrf_k : nat.


Lemma run_prefetch_eligible (flt : option Filter) (pts : list PointStruct)
    (pf : Prefetch) (ranking : list PointStruct) :
  run_prefetch dense_sim sparse_sim flt pts pf = Ok ranking ->
  Forall (fun p => p ∈ pts /\ eligible flt p = true) ranking.
Proof.
  unfold run_prefetch. destruct (scorer _ _ pf) as [sc|e]; simpl; [|done].
  intros [= <-]. apply Forall_forall. intros p Hp.
  apply subseteq_take in Hp. apply sort_by_elem_of in Hp.
  apply list_elem_of_filter in Hp as [He Hin]. done.
Qed.

Lemma dedup_ids_subseteq (seen : list nat) (l : list PointStruct) (p : PointStruct) :
  p ∈ dedup_ids seen l -> p ∈ l.
Proof.
  revert seen. induction l as [|q l IH]; simpl; intros seen Hin; [done|].
  destruct (existsb _ seen).
  - right. by eapply IH.
  - apply elem_of_cons in Hin as [-> | Hin]; [left | right; by eapply IH].
Qed.

Lemma fuse_candidates (rankings : list (list PointStruct)) (sp : ScoredPoint) :
  sp ∈ fuse rrf_k rankings ->
  exists p ranking, ranking ∈ rankings /\ p ∈ ranking
                    /\ sp = to_scored rrf_k rankings p.
Proof.
  unfold fuse. intros Hin. apply sort_by_elem_of in Hin.
  apply list_elem_of_fmap in Hin as (p & -> & Hin).
  apply dedup_ids_subseteq in Hin.
  apply list_elem_of_In, in_concat in Hin as (ranking & Hr & Hp).
  exists p, ranking. by rewrite !list_elem_of_In.
Qed.

(** What the store answers to the request of a hybrid search: the fusion of
    the sparse and of the dense prefetch, cut to the default limit. *)
Lemma serve_hybrid_request (d : DenseVector) (s : SparseVector) (flt : option Filter)
    (limit : nat) (pts : list PointStruct) (results : list ScoredPoint) :
  serve_query dense_sim sparse_sim rrf_k (hybrid_request d s flt limit) pts = Ok results ->
  exists sparse_ranking dense_ranking,
    run_prefetch dense_sim sparse_sim flt pts
      (mkPrefetch (NearestSparse (mkSparseVector (indices s) (values s))) "sparse" limit)
    = Ok sparse_ranking
    /\ run_prefetch dense_sim sparse_sim flt pts (mkPrefetch (NearestDense d) "dense" limit)
       = Ok dense_ranking
    /\ results = take default_limit (fuse rrf_k [sparse_ranking; dense_ranking]).
Proof.
  unfold serve_query, hybrid_request. simpl.
  intros [= <-]. eexists _, _. split_and!; reflexivity.
Qed.

(** A search that returns has embedded the query, and has had one answer of
    the store to its request. *)
Lemma query_hybrid_search_returns (self : HybridSearch) (query : string)
    (flt : option Filter) (limit : nat) (w w' : World) (docs : list PyVal) :
  query_hybrid_search dense_sim sparse_sim rrf_k self query flt limit w = (Ok docs, w') ->
  exists d s results,
    embedding_model self query = Ok d
    /\ sparse_embedding_model self query = Ok s
    /\ serve_query dense_sim sparse_sim rrf_k (hybrid_request d s flt limit) (points w)
       = Ok results
    /\ rmap (fun point => getitem (sp_payload point) "text") results = Ok docs.
Proof.
  unfold query_hybrid_search, bind, lift, query_points, round_trip.
  destruct (embedding_model self query) as [d|e]; [|done].
  destruct (sparse_embedding_model self query) as [s|e]; [|done].
  destruct (faults w) as [|[e|] fs]; [| done |];
    destruct (serve_query _ _ _ _ (points w)) as [results|e] eqn:Hq; try done;
    intros [= Hdocs _]; exists d, s, results; done.
Qed.

(** C2: with a metadata filter, the candidates of the sparse and of the
    dense prefetch are points that satisfy it, and so every passage returned
    is the text of a point that satisfies it; with the filter on a file
    name, every passage is the text of a point of that file. *)
Theorem metadata_filter_restricts_results (self : HybridSearch) (query : string)
    (f : Filter) (limit : nat) (w w' : World) (docs : list PyVal) :
  query_hybrid_search dense_sim sparse_sim rrf_k self query (Some f) limit w = (Ok docs, w') ->
  (exists d s sparse_ranking dense_ranking,
     embedding_model self query = Ok d
     /\ sparse_embedding_model self query = Ok s
     /\ Forall2 (fun pf ranking =>
                   run_prefetch dense_sim sparse_sim (Some f) (points w) pf = Ok ranking)
          (prefetch (hybrid_request d s (Some f) limit)) [sparse_ranking; dense_ranking]
     /\ Forall (satisfies f (points w)) sparse_ranking
     /\ Forall (satisfies f (points w)) dense_ranking)
  /\ Forall (fun passage =>
               exists p, satisfies f (points w) p
                         /\ getitem (payload p) "text" = Ok passage) docs
  /\ (forall name, f = file_name_filter name ->
        Forall (fun passage =>
                  exists p m, p ∈ points w /\ payload p = Some m
                              /\ m !! "file_name" = Some (PStr name)
                              /\ m !! "text" = Some passage) docs).
Proof.
  intros Hsearch.
  apply query_hybrid_search_returns in Hsearch as (d & s & results & Hd & Hs & Hq & Hdocs).
  apply serve_hybrid_request in Hq as (r1 & r2 & Hr1 & Hr2 & ->).
  pose proof (run_prefetch_eligible _ _ _ _ Hr1) as He1.
  pose proof (run_prefetch_eligible _ _ _ _ Hr2) as He2.
  assert (Hpass : Forall (fun passage =>
                    exists p, satisfies f (points w) p
                              /\ getitem (payload p) "text" = Ok passage) docs).
  { apply rmap_Forall2 in Hdocs. apply Forall_forall. intros passage Hin.
    apply list_elem_of_lookup_1 in Hin as [i Hi].
    destruct (Forall2_lookup_r _ _ _ _ _ Hdocs Hi) as (sp & Hsp & Htext).
    apply list_elem_of_lookup_2, subseteq_take in Hsp.
    apply fuse_candidates in Hsp as (p & ranking & Hranking & Hp & ->).
    exists p. split; [|done].
    rewrite Forall_forall in He1, He2.
    apply elem_of_cons in Hranking as [-> | Hranking]; [by apply He1|].
    apply list_elem_of_singleton in Hranking as ->. by apply He2. }
  split_and!.
  - exists d, s, r1, r2. split_and!; [done..| | done | done].
    unfold hybrid_request. simpl. repeat constructor; done.
  - done.
  - intros name ->. eapply Forall_impl; [exact Hpass|].
    intros passage (p & [Hin Hcheck] & Htext).
    apply check_file_name_filter in Hcheck as (m & Hm & Hname).
    exists p, m. split_and!; [done..|].
    rewrite Hm in Htext. simpl in Htext. by destruct (m !! "text") as [v|]; [injection Htext as ->|].
Qed.

End FilteredSearch.

(** ** Indexing in batches *)


Section IndexingInBatches.

Import Indexing IndexingSpec.

Lemma batches_concat {A : Type} (fuel n : nat) (l : list A) :
  (0 < n)%nat -> (length l <= fuel)%nat -> concat (batches fuel n l) = l.
Proof.
  intros Hn. revert l. induction fuel as [|fuel IH]; intros l Hlen.
  - destruct l; [done | simpl in Hlen; lia].
  - destruct l as [|x l]; [done|].
    change (batches (S fuel) n (x :: l))
      with (take n (x :: l) :: batches fuel n (drop n (x :: l))).
    simpl concat. rewrite IH; [apply take_drop|].
    rewrite length_drop. simpl in *. lia.
Qed.

Lemma split_batches_concat {A : Type} (n : nat) (l : list A) :
  (0 < n)%nat -> concat (split_batches n l) = l.
Proof. intros Hn. by apply batches_concat. Qed.

Lemma make_points_spec (self : QdrantIndexer) (chunks : list Node) (w : World) :
  embeddable self chunks ->
  exists pts,
    make_points self chunks w
    = (Ok pts, mkWorld (points w) (faults w) (log w) (next_uuid w + length chunks))
    /\ map id pts = seq (next_uuid w) (length chunks)
    /\ map payload pts = map payload_of chunks.
Proof.
  revert w. induction chunks as [|chunk rest IH]; intros w Hemb.
  - exists []. simpl. unfold ret. rewrite Nat.add_0_r. by destruct w.
  - destruct (Hemb chunk) as (d & s & Hd & Hs); [left|].
    destruct (IH (mkWorld (points w) (faults w) (log w) (S (next_uuid w)))) as (ps & Hps & Hids & Hpl).
    { intros c Hc. apply Hemb. by right. }
    simpl in Hps, Hids.
    exists (mkPoint (next_uuid w) d s (payload_of chunk) :: ps). simpl.
    unfold bind at 1. unfold make_point, bind, lift, fresh_uuid, ret.
    rewrite Hd, Hs. simpl. rewrite Hps. simpl.
    rewrite Hids, Hpl, Nat.add_succ_r. done.
Qed.

Lemma upsert_point_new (pts : list PointStruct) (p : PointStruct) :
  p ∈ upsert_point pts p.
Proof.
  unfold upsert_point. destruct (existsb _ pts) eqn:Hex.
  - apply existsb_exists in Hex as (q & Hq & Hid).
    apply list_elem_of_fmap. exists q. rewrite Hid. split; [done | by apply list_elem_of_In].
  - apply elem_of_app. right. left.
Qed.

Lemma upsert_point_keeps (pts : list PointStruct) (p q : PointStruct) :
  q ∈ pts -> id q <> id p -> q ∈ upsert_point pts p.
Proof.
  intros Hin Hne. unfold upsert_point. destruct (existsb _ pts).
  - apply list_elem_of_fmap. exists q. split; [|done].
    by rewrite (proj2 (Nat.eqb_neq _ _) Hne).
  - apply elem_of_app. by left.
Qed.

Lemma upsert_batch_keeps (batch pts : list PointStruct) (q : PointStruct) :
  q ∈ pts -> id q ∉ map id batch -> q ∈ foldl upsert_point pts batch.
Proof.
  revert pts. induction batch as [|p batch IH]; simpl; intros pts Hin Hid; [done|].
  apply not_elem_of_cons in Hid as [Hne Hid].
  apply IH; [|done]. by apply upsert_point_keeps.
Qed.

Lemma upsert_batch_stores (batch pts : list PointStruct) (p : PointStruct) :
  NoDup (map id batch) -> p ∈ batch -> p ∈ foldl upsert_point pts batch.
Proof.
  revert pts. induction batch as [|a batch IH]; simpl; intros pts Hnodup Hin.
  - by apply elem_of_nil in Hin.
  - apply NoDup_cons in Hnodup as [Hfresh Hnodup].
    apply elem_of_cons in Hin as [-> | Hin].
    + apply upsert_batch_keeps; [apply upsert_point_new | done].
    + by apply IH.
Qed.

Lemma store_after_keeps (fs : list (option Exn)) (bs : list (list PointStruct))
    (pts : list PointStruct) (q : PointStruct) :
  q ∈ pts -> id q ∉ map id (concat bs) -> q ∈ store_after fs bs pts.
Proof.
  revert fs pts. induction bs as [|b bs IH]; simpl; intros fs pts Hin Hid; [done|].
  rewrite map_app in Hid. apply not_elem_of_app in Hid as [Hb Hbs].
  apply IH; [|done]. destruct (head_ok fs); [|done].
  by apply upsert_batch_keeps.
Qed.

(** The points of a batch whose upsert succeeded are in the store after all
    the batches. *)
Lemma store_after_stores (fs : list (option Exn)) (bs : list (list PointStruct))
    (pts : list PointStruct) (i : nat) (batch : list PointStruct) (p : PointStruct) :
  NoDup (map id (concat bs)) ->
  bs !! i = Some batch ->
  match fs !! i with Some (Some _) => False | _ => True end ->
  p ∈ batch -> p ∈ store_after fs bs pts.
Proof.
  revert fs pts i. induction bs as [|b bs IH]; intros fs pts i Hnodup Hi Hok Hin.
  - by rewrite lookup_nil in Hi.
  - simpl in Hnodup. rewrite map_app in Hnodup.
    apply NoDup_app in Hnodup as (Hb & Hdisj & Hbs).
    destruct i as [|i]; simpl in Hi.
    + injection Hi as ->. simpl.
      assert (Hhead : head_ok fs = true) by (by destruct fs as [|[e|] fs]).
      rewrite Hhead. apply store_after_keeps; [by apply upsert_batch_stores|].
      apply Hdisj. by apply (list_elem_of_fmap_2 id).
    + simpl. eapply IH; [done | exact Hi | | done].
      by destruct fs.
Qed.

Lemma all_ok_spec (fs : list (option Exn)) (bs : list (list PointStruct)) :
  all_ok fs bs = true <->
  forall i, (i < length bs)%nat -> match fs !! i with Some (Some _) => False | _ => True end.
Proof.
  revert fs. induction bs as [|b bs IH]; intros fs; simpl.
  - split; [intros _ i Hi; lia | done].
  - rewrite andb_true_iff, IH. split.
    + intros [Hhead Htail] [|i] Hi.
      * by destruct fs as [|[e|] fs].
      * destruct fs as [|o fs]; [done|]. apply (Htail i). lia.
    + intros Hall. split.
      * specialize (Hall 0%nat ltac:(lia)). by destruct fs as [|[e|] fs].
      * intros i Hi. specialize (Hall (S i) ltac:(lia)). by destruct fs.
Qed.

Lemma upsert_batches_spec (bs : list (list PointStruct)) (n : nat) (success : bool)
    (w : World) :
  exists w',
    upsert_batches bs n success w = (Ok (success && all_ok (faults w) bs), w')
    /\ points w' = store_after (faults w) bs (points w).
Proof.
  revert n success w. induction bs as [|b bs IH]; intros n success w.
  - exists w. simpl. unfold ret. by rewrite andb_true_r.
  - simpl. unfold bind at 1. unfold try_except, bind, upsert, round_trip, serve_upsert.
    rewrite String.eqb_refl. simpl.
    destruct (faults w) as [|[e|] fs] eqn:Hf; simpl.
    + destruct (IH (S n) success (mkWorld (foldl upsert_point (points w) b) [] (log w) (next_uuid w)))
        as (w' & Hrun & Hpts).
      exists w'. by rewrite Hrun.
    + unfold logger_error, ret. simpl.
      destruct (IH (S n) false
                  (mkWorld (points w) fs
                     (log w ++ ["Error upserting batch " +:+ str_of_N (N.of_nat n)
                                +:+ ": " +:+ str_exn e]) (next_uuid w)))
        as (w' & Hrun & Hpts).
      exists w'. rewrite Hrun. simpl in *. by rewrite andb_false_r.
    + destruct (IH (S n) success (mkWorld (foldl upsert_point (points w) b) fs (log w) (next_uuid w)))
        as (w' & Hrun & Hpts).
      exists w'. by rewrite Hrun.
Qed.

(** C3: for chunks that embed, [index_documents] returns, and it returns
    true exactly when the upsert of every batch succeeds; the points of
    every batch whose upsert succeeded are in the store afterwards, also
    when another batch failed. The batches are the points of the chunks, in
    order. *)
Theorem index_documents_true_iff_all_batches (self : QdrantIndexer) (chunks : list Node)
    (w : World) :
  (0 < batch_size self)%nat ->
  embeddable self chunks ->
  exists pts result w',
    index_documents self chunks w = (Ok result, w')
    /\ map payload pts = map payload_of chunks
    /\ concat (split_batches (batch_size self) pts) = pts
    /\ (result = true <->
        forall i, (i < length (split_batches (batch_size self) pts))%nat ->
                  round_trip_succeeds w i)
    /\ (forall i batch p,
          split_batches (batch_size self) pts !! i = Some batch ->
          round_trip_succeeds w i ->
          p ∈ batch -> p ∈ points w').
Proof.
  intros Hsize Hemb.
  destruct (make_points_spec self chunks w Hemb) as (pts & Hmake & Hids & Hpl).
  set (w1 := mkWorld (points w) (faults w) (log w) (next_uuid w + length chunks)) in *.
  destruct (upsert_batches_spec (split_batches (batch_size self) pts) 0 true w1)
    as (w' & Hrun & Hpts).
  exists pts, (all_ok (faults w) (split_batches (batch_size self) pts)), w'.
  split_and!.
  - unfold index_documents, bind. rewrite Hmake. exact Hrun.
  - done.
  - by apply split_batches_concat.
  - apply all_ok_spec.
  - intros i batch p Hi Hok Hin. rewrite Hpts. simpl.
    eapply store_after_stores; [|exact Hi|exact Hok|exact Hin].
    rewrite split_batches_concat by done. rewrite Hids. apply NoDup_seq.
Qed.

End IndexingInBatches.


(** ** The number of passages of a search *)

(** C1, on the code: where the claim has at most [limit] passages, the
    search can return more. The limit is given to the two prefetches and not
    to the fused query, so the store cuts the fusion to its default limit.
    With [limit = 1] and a collection whose best sparse match and best dense
    match differ, the search returns two passages. *)
Theorem query_hybrid_search_exceeds_limit :
  (query_hybrid_search Scenario.dot Scenario.sparse_dot 2 Scenario.searcher
     "match" None 1 Scenario.two_points).1
  = Ok [PStr "keyword match"; PStr "semantic match"].
Proof. vm_compute. reflexivity. Qed.

Section FusedRanking.

Variable dense_sim : DenseVector -> DenseVector -> Q.
Variable sparse_sim : SparseVector -> SparseVector -> Q.
Variable rrf_k : nat.

Lemma by_fused_total (a b : ScoredPoint) : by_fused a b = true \/ by_fused b a = true.
Proof.
  unfold by_fused. rewrite !Qle_bool_iff.
  destruct (Qlt_le_dec (sp_score a) (sp_score b)) as [Hlt|Hle]; [right | by left].
  by apply Qlt_le_weak.
Qed.

Lemma by_fused_trans (a b c : ScoredPoint) :
  by_fused a b = true -> by_fused b c = true -> by_fused a c = true.
Proof. unfold by_fused. rewrite !Qle_bool_iff. intros H1 H2. by eapply Qle_trans. Qed.

Lemma dedup_ids_length (seen : list nat) (l : list PointStruct) :
  (length (dedup_ids seen l) <= length l)%nat.
Proof.
  revert seen. induction l as [|p l IH]; simpl; intros seen; [done|].
  destruct (existsb _ seen); simpl.
  - specialize (IH seen). lia.
  - specialize (IH (id p :: seen)). lia.
Qed.

Lemma run_prefetch_length (flt : option Filter) (pts : list PointStruct) (pf : Prefetch)
    (ranking : list PointStruct) :
  run_prefetch dense_sim sparse_sim flt pts pf = Ok ranking ->
  (length ranking <= pf_limit pf)%nat.
Proof.
  unfold run_prefetch. destruct (scorer _ _ pf) as [sc|e]; simpl; [|done].
  intros [= <-]. rewrite length_take. lia.
Qed.

(** X1, the part of C1 that holds: a search that returns has embedded the
    query, and the two rankings are what the store finds for the sparse and
    for the dense prefetch of the request on the points of the collection,
    each with the limit of the call. The passages are the texts of the fused
    candidates, each a point of one of the two rankings, by descending fused
    score, where the fused score is the sum of the contributions of the two
    rankings. Their number is bounded by the default limit of the store and
    by twice the limit of the call. *)
Lemma query_hybrid_search_ranked (self : HybridSearch) (query : string)
    (flt : option Filter) (limit : nat) (w w' : World) (docs : list PyVal) :
  query_hybrid_search dense_sim sparse_sim rrf_k self query flt limit w = (Ok docs, w') ->
  exists d s sparse_ranking dense_ranking results,
    embedding_model self query = Ok d
    /\ sparse_embedding_model self query = Ok s
    /\ Forall2 (fun pf ranking =>
                  run_prefetch dense_sim sparse_sim flt (points w) pf = Ok ranking)
         (prefetch (hybrid_request d s flt limit)) [sparse_ranking; dense_ranking]
    /\ Forall (fun point =>
                 exists p, (p ∈ sparse_ranking \/ p ∈ dense_ranking)
                           /\ p ∈ points w
                           /\ sp_id point = id p
                           /\ sp_payload point = payload p)
         results
    /\ Forall2 (fun point passage => getitem (sp_payload point) "text" = Ok passage)
         results docs
    /\ results = take default_limit (fuse rrf_k [sparse_ranking; dense_ranking])
    /\ (length sparse_ranking <= limit)%nat
    /\ (length dense_ranking <= limit)%nat
    /\ StronglySorted (fun a b => Qle (sp_score b) (sp_score a)) results
    /\ Forall (fun point =>
                 sp_score point
                 = Qplus (rrf_contribution rrf_k (sp_id point) sparse_ranking)
                     (Qplus (rrf_contribution rrf_k (sp_id point) dense_ranking) 0))
         results
    /\ (length docs <= default_limit)%nat
    /\ (length docs <= limit + limit)%nat.
Proof.
  intros Hsearch.
  apply query_hybrid_search_returns in Hsearch as (d & s & results & Hd & Hs & Hq & Hdocs).
  apply serve_hybrid_request in Hq as (r1 & r2 & Hr1 & Hr2 & ->).
  pose proof (run_prefetch_eligible _ _ _ _ _ _ Hr1) as He1.
  pose proof (run_prefetch_eligible _ _ _ _ _ _ Hr2) as He2.
  rewrite Forall_forall in He1, He2.
  assert (Hprefetches :
    Forall2 (fun pf ranking =>
               run_prefetch dense_sim sparse_sim flt (points w) pf = Ok ranking)
      (prefetch (hybrid_request d s flt limit)) [r1; r2]).
  { unfold hybrid_request. simpl. repeat constructor; done. }
  apply run_prefetch_length in Hr1, Hr2. simpl in Hr1, Hr2.
  apply rmap_Forall2 in Hdocs.
  exists d, s, r1, r2, (take default_limit (fuse rrf_k [r1; r2])).
  assert (Hsorted : StronglySorted (fun a b => Qle (sp_score b) (sp_score a))
                      (fuse rrf_k [r1; r2])).
  { pose proof (sort_by_sorted by_fused by_fused_total by_fused_trans
      (map (to_scored rrf_k [r1; r2]) (dedup_ids [] (concat [r1; r2])))) as H.
    eapply StronglySorted_impl; [|exact H].
    intros a b Hab. by apply Qle_bool_iff. }
  assert (Hlen : (length (fuse rrf_k [r1; r2]) <= limit + limit)%nat).
  { unfold fuse. rewrite (Permutation_length (sort_by_perm _ _)), length_map.
    etrans; [apply dedup_ids_length|]. simpl. rewrite app_nil_r, length_app. lia. }
  split_and!; try done.
  - apply Forall_forall. intros sp Hsp. apply subseteq_take in Hsp.
    apply fuse_candidates in Hsp as (p & ranking & Hranking & Hp & ->).
    exists p. simpl.
    apply elem_of_cons in Hranking as [-> | Hranking].
    + split_and!; [by left | by apply He1 | done..].
    + apply list_elem_of_singleton in Hranking as ->.
      split_and!; [by right | by apply He2 | done..].
  - rewrite <- (take_drop default_limit (fuse rrf_k [r1; r2])) in Hsorted.
    by apply StronglySorted_app_1_l in Hsorted.
  - apply Forall_forall. intros sp Hsp. apply subseteq_take in Hsp.
    apply fuse_candidates in Hsp as (p & ranking & _ & _ & ->). reflexivity.
  - rewrite <- (Forall2_length _ _ _ Hdocs), length_take. lia.
  - rewrite <- (Forall2_length _ _ _ Hdocs), length_take. lia.
Qed.

End FusedRanking.

(** ** The theorems at work on the small collection *)

Section Instances.

Import Main SummarySpec Indexing IndexingSpec MainFastapi Scenario.

Lemma query_hybrid_search_propagates_witness :
  retrieval_fails dot sparse_dot 2 searcher "match" None 5 store_down_once
    (StoreError "timed out")
  /\ (let r := query_hybrid_search dot sparse_dot 2 searcher "match" None 5 store_down_once in
      r.1 = Raise (StoreError "timed out")
      /\ (faults r.2 = faults store_down_once \/ faults r.2 = tail (faults store_down_once))
      /\ points r.2 = points store_down_once
      /\ log r.2 = log store_down_once).
Proof.
  assert (H : retrieval_fails dot sparse_dot 2 searcher "match" None 5 store_down_once
                (StoreError "timed out")).
  { apply (store_round_trip_fails dot sparse_dot 2 searcher "match" None 5 store_down_once
             (StoreError "timed out") [0%Q; 1%Q] (mkSparseVector [0%nat] [1%Q]));
      reflexivity. }
  split; [exact H|].
  exact (query_hybrid_search_propagates dot sparse_dot 2 searcher "match" None 5
           store_down_once (StoreError "timed out") H).
Defined.

Lemma search_documents_never_raises_witness :
  (query_hybrid_search dot sparse_dot 2 (hybrid_search stats) "match" None 5
     store_down_once).1 = Raise (StoreError "timed out")
  /\ (Main.search_documents dot sparse_dot 2 stats "match" 5 store_down_once).1 = Ok [].
Proof.
  assert (H : (query_hybrid_search dot sparse_dot 2 (hybrid_search stats) "match" None 5
                 store_down_once).1 = Raise (StoreError "timed out")) by reflexivity.
  split; [exact H|].
  exact (proj1 (proj1 (search_documents_never_raises dot sparse_dot 2 stats "match" 5
                         store_down_once) (StoreError "timed out") H)).
Defined.

Lemma get_indexed_documents_on_error_witness :
  fetch_fails (fun s => s) odd_label
    (ValueError ("invalid literal for int() with base 10: '" +:+ superscript_two +:+ "'"))
  /\ (let r := get_indexed_documents (fun s => s) stats odd_label in
      r.1 = Ok []
      /\ log r.2
         = (log odd_label
            ++ ["Error fetching documents: "
                +:+ str_exn (ValueError ("invalid literal for int() with base 10: '"
                                         +:+ superscript_two +:+ "'"))])%list
      /\ points r.2 = points odd_label).
Proof.
  assert (H : fetch_fails (fun s => s) odd_label
                (ValueError ("invalid literal for int() with base 10: '"
                             +:+ superscript_two +:+ "'"))).
  { eapply sort_raises; vm_compute; reflexivity. }
  split; [exact H|].
  exact (get_indexed_documents_on_error (fun s => s) stats odd_label _ H).
Defined.

Lemma pages_sorted_by_comparator_witness :
  iterates_sets (fun s => s)
  /\ get_indexed_documents (fun s => s) stats four_pages
     = (Ok (four_pages_summary [PStr "2"; PStr "10"; PStr "ii"; PStr "iv"]), four_pages)
  /\ [PStr "2"; PStr "10"; PStr "ii"; PStr "iv"]
     ≡ₚ encounter_order (labels_of (PStr "A.pdf") (scanned four_pages))
  /\ numeric_first_ascending [PStr "2"; PStr "10"; PStr "ii"; PStr "iv"]
  /\ filter (fun x => non_numeric x = true) [PStr "2"; PStr "10"; PStr "ii"; PStr "iv"]
     = filter (fun x => non_numeric x = true)
         (encounter_order (labels_of (PStr "A.pdf") (scanned four_pages))).
Proof.
  assert (Hiter : iterates_sets (fun s => s)) by (intros s _; reflexivity).
  assert (Hget : get_indexed_documents (fun s => s) stats four_pages
                 = (Ok (four_pages_summary [PStr "2"; PStr "10"; PStr "ii"; PStr "iv"]),
                    four_pages)) by (vm_compute; reflexivity).
  split; [exact Hiter|]. split; [exact Hget|].
  exact (pages_sorted_by_comparator (fun s => s) stats four_pages four_pages _
           (PStr "A.pdf") _ Hiter Hget (list_elem_of_here _ _)).
Defined.

(** C7 as the claim has it fails: when Python iterates the set of the labels
    ii, 10, iv and 2 in the reverse of the order they were added, the summary
    lists iv before ii, and the points bring ii first. *)
Lemma pages_not_in_encounter_order :
  ~ (forall set_iter, iterates_sets set_iter -> pages_as_claimed set_iter).
Proof.
  intros Hclaim.
  assert (Hrev : iterates_sets (@rev PyVal)).
  { intros s _. symmetry. apply Permutation_rev. }
  assert (Hget : get_indexed_documents (@rev PyVal) stats four_pages
                 = (Ok (four_pages_summary [PStr "2"; PStr "10"; PStr "iv"; PStr "ii"]),
                    four_pages)) by (vm_compute; reflexivity).
  destruct (Hclaim _ Hrev stats four_pages four_pages _ (PStr "A.pdf") _ Hget
              (list_elem_of_here _ _)) as [_ Horder].
  vm_compute in Horder. discriminate Horder.
Qed.

Lemma text_chunks_are_previews_witness :
  get_indexed_documents (fun s => s) stats long_page = (Ok long_page_summary, long_page)
  /\ texts_of (PStr "A.pdf") (scanned long_page)
     = [(PStr "1", letters 201); (PStr "2", letters 200); (PStr "3", "short")]
  /\ previews_of (texts_of (PStr "A.pdf") (scanned long_page)) long_page_chunks.
Proof.
  assert (Hget : get_indexed_documents (fun s => s) stats long_page
                 = (Ok long_page_summary, long_page)) by (vm_compute; reflexivity).
  assert (Htexts : texts_of (PStr "A.pdf") (scanned long_page)
                   = [(PStr "1", letters 201); (PStr "2", letters 200); (PStr "3", "short")])
    by (vm_compute; reflexivity).
  split; [exact Hget|]. split; [exact Htexts|].
  exact (text_chunks_are_previews (fun s => s) stats long_page long_page _
           (PStr "A.pdf") _ Hget (list_elem_of_here _ _)).
Defined.

Lemma metadata_filter_restricts_results_witness :
  query_hybrid_search dot sparse_dot 2 searcher "match"
    (Some (file_name_filter "A.pdf")) 5 two_points
  = (Ok [PStr "keyword match"], two_points)
  /\ Forall (fun passage =>
               exists p m, p ∈ points two_points /\ payload p = Some m
                           /\ m !! "file_name" = Some (PStr "A.pdf")
                           /\ m !! "text" = Some passage)
       [PStr "keyword match"].
Proof.
  assert (H : query_hybrid_search dot sparse_dot 2 searcher "match"
                (Some (file_name_filter "A.pdf")) 5 two_points
              = (Ok [PStr "keyword match"], two_points)) by (vm_compute; reflexivity).
  split; [exact H|].
  exact (proj2 (proj2 (metadata_filter_restricts_results dot sparse_dot 2 searcher "match"
                         (file_name_filter "A.pdf") 5 two_points two_points _ H))
           "A.pdf" eq_refl).
Defined.

Lemma index_documents_true_iff_all_batches_witness :
  (0 < batch_size indexer)%nat
  /\ embeddable indexer three_chunks
  /\ exists pts result w',
       Indexing.index_documents indexer three_chunks first_batch_fails = (Ok result, w')
       /\ map payload pts = map payload_of three_chunks
       /\ concat (split_batches (batch_size indexer) pts) = pts
       /\ (result = true <->
           forall i, (i < length (split_batches (batch_size indexer) pts))%nat ->
                     round_trip_succeeds first_batch_fails i)
       /\ (forall i batch p,
             split_batches (batch_size indexer) pts !! i = Some batch ->
             round_trip_succeeds first_batch_fails i ->
             p ∈ batch -> p ∈ points w').
Proof.
  assert (Hsize : (0 < batch_size indexer)%nat) by (simpl; lia).
  assert (Hemb : embeddable indexer three_chunks).
  { intros chunk _. exists [1%Q], (mkSparseVector [] []). split; reflexivity. }
  split; [exact Hsize|]. split; [exact Hemb|].
  exact (index_documents_true_iff_all_batches indexer three_chunks first_batch_fails
           Hsize Hemb).
Defined.

(** The first of two batches fails: the result is false, the failure is
    logged, and the point of the second batch is in the store. *)
Example index_documents_partial_failure :
  Indexing.index_documents indexer three_chunks first_batch_fails
  = (Ok false,
     mkWorld [mkPoint 2 [1%Q] (mkSparseVector [] []) (payload_of (mkNode "three" ∅))]
       [] ["Error upserting batch 0: unavailable"] 3).
Proof. vm_compute. reflexivity. Qed.

Lemma index_documents_validation_answers_500_witness :
  ((exists f name, f ∈ [mkUploadFile (Some "notes.txt") "hello"]
                   /\ filename f = Some name
                   /\ endswith (lower name) ".pdf" = false)
   \/ (exists temp_dir nodes error w1,
         save_files write_file [] [mkUploadFile (Some "notes.txt") "hello"] = Ok temp_dir
         /\ process_documents indexing_module temp_dir two_points = (Ok (nodes, error), w1)
         /\ truthy error = true))
  /\ status_of (MainFastapi.index_documents indexing_module write_file
                  [mkUploadFile (Some "notes.txt") "hello"] two_points).1 = 500%Z.
Proof.
  assert (H : (exists f name, f ∈ [mkUploadFile (Some "notes.txt") "hello"]
                              /\ filename f = Some name
                              /\ endswith (lower name) ".pdf" = false)
              \/ (exists temp_dir nodes error w1,
                    save_files write_file [] [mkUploadFile (Some "notes.txt") "hello"]
                    = Ok temp_dir
                    /\ process_documents indexing_module temp_dir two_points
                       = (Ok (nodes, error), w1)
                    /\ truthy error = true)).
  { left. exists (mkUploadFile (Some "notes.txt") "hello"), "notes.txt".
    split; [apply list_elem_of_here|]. split; reflexivity. }
  split; [exact H|].
  exact (index_documents_validation_answers_500 indexing_module write_file _ two_points H).
Defined.

(** A text of 201 characters is cut to 200 and three dots; one of 200
    characters is kept whole. *)
Example preview_cuts_long_texts :
  preview (PStr (letters 201)) = Ok (letters 200 +:+ "...")
  /\ preview (PStr (letters 200)) = Ok (letters 200).
Proof. split; vm_compute; reflexivity. Qed.

(** An upload that is not a PDF is answered with status 500 and the text of
    the 400 as detail. *)
Example index_documents_non_pdf :
  (MainFastapi.index_documents indexing_module write_file
     [mkUploadFile (Some "notes.txt") "hello"] two_points).1
  = Raise (HTTPException 500 "400: File notes.txt is not a PDF").
Proof. vm_compute. reflexivity. Qed.

End Instances.

(** * Further properties of the code *)

(** ** The hybrid search *)

Section HybridSearchFurther.

Import Scenario Cases.

Variable dense_sim : DenseVector -> DenseVector -> Q.
Variable sparse_sim : SparseVector -> SparseVector -> Q.
Variable rrf_k : nat.

Lemma round_trip_next_uuid {A : Type}
    (serve : list PointStruct -> Result A * list PointStruct) (w : World) :
  next_uuid (round_trip serve w).2 = next_uuid w.
Proof.
  unfold round_trip. destruct (faults w) as [|[e|] fs]; simpl; try done;
    by destruct (serve (points w)).
Qed.

(** X2: a search only reads. Whatever it returns or raises, the points of the
    collection and the log are as before; the store is contacted once when
    both embeddings of the query succeed, and not at all when one fails. *)
Theorem query_hybrid_search_reads_only (self : HybridSearch) (query : string)
    (flt : option Filter) (limit : nat) (w : World) :
  let r := query_hybrid_search dense_sim sparse_sim rrf_k self query flt limit w in
  points r.2 = points w
  /\ log r.2 = log w
  /\ next_uuid r.2 = next_uuid w
  /\ match embedding_model self query, sparse_embedding_model self query with
     | Ok _, Ok _ => faults r.2 = tail (faults w)
     | Ok _, Raise e | Raise e, _ => faults r.2 = faults w /\ r.1 = Raise e
     end.
Proof.
  unfold query_hybrid_search, bind, lift. simpl.
  destruct (embedding_model self query) as [d|e]; [|done].
  destruct (sparse_embedding_model self query) as [s|e]; [|done].
  unfold query_points.
  set (serve := fun pts => (serve_query dense_sim sparse_sim rrf_k
                              (hybrid_request d s flt limit) pts, pts)).
  pose proof (round_trip_faults serve w) as Hf.
  pose proof (round_trip_read_points
                (serve_query dense_sim sparse_sim rrf_k (hybrid_request d s flt limit)) w) as Hp.
  pose proof (round_trip_log serve w) as Hl.
  pose proof (round_trip_next_uuid serve w) as Hu.
  fold serve in Hp.
  destruct (round_trip serve w) as [[results|e] w1]; simpl in *; done.
Qed.

Lemma rmap_first_failure {A B : Type} (f : A -> Result B) (e : Exn) (l : list A) :
  Forall (fun x => (exists y, f x = Ok y) \/ f x = Raise e) l ->
  Exists (fun x => f x = Raise e) l ->
  rmap f l = Raise e.
Proof.
  induction 1 as [|x l Hx Hall IH]; intros Hex.
  - by apply Exists_nil in Hex.
  - simpl. destruct Hx as [[y Hy] | Hx].
    + rewrite Hy. simpl. apply Exists_cons in Hex as [Hex | Hex]; [congruence|].
      by rewrite (IH Hex).
    + by rewrite Hx.
Qed.

(** X3: the text of every returned point is read with [payload["text"]]: when
    the answer of the store holds a point whose payload has no text, the
    search raises [KeyError('text')] and returns none of the other
    passages. *)
Theorem query_hybrid_search_missing_text (self : HybridSearch) (query : string)
    (flt : option Filter) (limit : nat) (w : World)
    (d : DenseVector) (s : SparseVector) (results : list ScoredPoint) :
  embedding_model self query = Ok d ->
  sparse_embedding_model self query = Ok s ->
  (query_points dense_sim sparse_sim rrf_k (hybrid_request d s flt limit) w).1 = Ok results ->
  Forall (fun point => is_Some (sp_payload point)) results ->
  Exists (fun point => exists m, sp_payload point = Some m /\ m !! "text" = None) results ->
  (query_hybrid_search dense_sim sparse_sim rrf_k self query flt limit w).1
  = Raise (KeyError "text").
Proof.
  intros Hd Hs Hq Hall Hex.
  unfold query_hybrid_search, bind, lift. rewrite Hd, Hs.
  destruct (query_points _ _ _ _ w) as [[results'|e] w1]; simpl in *; [|done].
  injection Hq as ->.
  rewrite (rmap_first_failure _ (KeyError "text") results); [done| |].
  - eapply Forall_impl; [exact Hall|]. intros point [m Hm]. rewrite Hm. simpl.
    destruct (m !! "text"); eauto.
  - eapply Exists_impl; [exact Hex|]. intros point (m & Hm & Htext).
    rewrite Hm. simpl. by rewrite Htext.
Qed.

Lemma dedup_ids_complete (seen : list nat) (l : list PointStruct) (p : PointStruct) :
  p ∈ l -> id p ∉ seen ->
  exists q, q ∈ dedup_ids seen l /\ id q = id p.
Proof.
  revert seen. induction l as [|a l IH]; intros seen Hin Hseen.
  - by apply elem_of_nil in Hin.
  - simpl. destruct (existsb (Nat.eqb (id a)) seen) eqn:Hex.
    + apply elem_of_cons in Hin as [-> | Hin]; [|by apply IH].
      exfalso. apply Hseen. apply existsb_exists in Hex as (i & Hi & Heq).
      apply Nat.eqb_eq in Heq. rewrite Heq. by apply list_elem_of_In.
    + destruct (decide (id p = id a)) as [Heq | Hne].
      * exists a. split; [left | done].
      * apply elem_of_cons in Hin as [-> | Hin]; [done|].
        destruct (IH (id a :: seen) Hin) as (q & Hq & Hid).
        { by apply not_elem_of_cons. }
        exists q. split; [by right | done].
Qed.

Lemma same_id_same_point (pts : list PointStruct) (p q : PointStruct) :
  NoDup (map id pts) -> p ∈ pts -> q ∈ pts -> id p = id q -> p = q.
Proof.
  induction pts as [|a pts IH]; simpl; intros Hnodup Hp Hq Hid.
  - by apply elem_of_nil in Hp.
  - apply NoDup_cons in Hnodup as [Hfresh Hnodup].
    apply elem_of_cons in Hp as [-> | Hp]; apply elem_of_cons in Hq as [-> | Hq].
    + done.
    + exfalso. apply Hfresh. rewrite Hid. by apply (list_elem_of_fmap_2 id).
    + exfalso. apply Hfresh. rewrite <- Hid. by apply (list_elem_of_fmap_2 id).
    + by apply IH.
Qed.

(** X4: with a limit of at most 5, nothing that a prefetch found is lost in
    the fusion: the text of every candidate of the sparse prefetch and of
    every candidate of the dense prefetch is among the passages returned,
    also when the other prefetch did not find it. *)
Theorem query_hybrid_search_keeps_candidates (self : HybridSearch) (query : string)
    (flt : option Filter) (limit : nat) (w w' : World) (docs : list PyVal) :
  (limit <= 5)%nat ->
  NoDup (map id (points w)) ->
  query_hybrid_search dense_sim sparse_sim rrf_k self query flt limit w = (Ok docs, w') ->
  exists d s,
    embedding_model self query = Ok d
    /\ sparse_embedding_model self query = Ok s
    /\ forall pf ranking p,
         pf ∈ prefetch (hybrid_request d s flt limit) ->
         run_prefetch dense_sim sparse_sim flt (points w) pf = Ok ranking ->
         p ∈ ranking ->
         exists passage, getitem (payload p) "text" = Ok passage /\ passage ∈ docs.
Proof.
  intros Hlimit Hnodup Hsearch.
  apply query_hybrid_search_returns in Hsearch as (d & s & results & Hd & Hs & Hq & Hdocs).
  apply serve_hybrid_request in Hq as (r1 & r2 & Hr1 & Hr2 & ->).
  exists d, s. split_and!; [done..|].
  intros pf ranking p Hpf Hranking Hp.
  pose proof (run_prefetch_eligible _ _ _ _ _ _ Hr1) as He1.
  pose proof (run_prefetch_eligible _ _ _ _ _ _ Hr2) as He2.
  pose proof (run_prefetch_length _ _ _ _ _ _ Hr1) as Hl1.
  pose proof (run_prefetch_length _ _ _ _ _ _ Hr2) as Hl2.
  simpl in Hl1, Hl2. rewrite Forall_forall in He1, He2.
  assert (Hcand : p ∈ concat [r1; r2]).
  { simpl. rewrite app_nil_r. apply elem_of_app.
    unfold hybrid_request in Hpf. simpl in Hpf.
    apply elem_of_cons in Hpf as [-> | Hpf]; [left; congruence|].
    apply list_elem_of_singleton in Hpf as ->. right. congruence. }
  assert (Hstore : forall q, q ∈ concat [r1; r2] -> q ∈ points w).
  { intros q. simpl. rewrite app_nil_r. intros [Hq | Hq]%elem_of_app;
      [by apply He1 | by apply He2]. }
  destruct (dedup_ids_complete [] _ p Hcand) as (q & Hq & Hid).
  { apply not_elem_of_nil. }
  assert (q = p) as ->.
  { apply (same_id_same_point (points w)); [done | | by apply Hstore | done].
    apply Hstore. by eapply dedup_ids_subseteq. }
  assert (Hfused : to_scored rrf_k [r1; r2] p ∈ take default_limit (fuse rrf_k [r1; r2])).
  { rewrite take_ge.
    - unfold fuse. apply sort_by_elem_of. by apply list_elem_of_fmap_2.
    - unfold fuse. rewrite (Permutation_length (sort_by_perm _ _)), length_map.
      etrans; [apply dedup_ids_length|]. simpl. rewrite app_nil_r, length_app.
      unfold default_limit. lia. }
  apply rmap_Forall2 in Hdocs.
  apply list_elem_of_lookup_1 in Hfused as [i Hi].
  destruct (Forall2_lookup_l _ _ _ _ _ Hdocs Hi) as (passage & Hpassage & Htext).
  exists passage. split; [exact Htext | by eapply list_elem_of_lookup_2].
Qed.

End HybridSearchFurther.

(** ** The document summary *)

Section SummaryFurther.

Import Main SummarySpec CoverageSpec Scenario Cases.

Lemma update_update (key : PyVal) (f g : Document -> Document) (documents : Documents) :
  update key g (update key f documents) = update key (fun d => g (f d)) documents.
Proof.
  induction documents as [|[k d] rest IH]; simpl; [done|].
  case_bool_decide as Hk; simpl.
  - by rewrite bool_decide_eq_true_2.
  - rewrite bool_decide_eq_false_2 by done. by rewrite IH.
Qed.

Lemma update_same (key : PyVal) (documents : Documents) :
  update key (fun d => d) documents = documents.
Proof.
  induction documents as [|[k d] rest IH]; simpl; [done|].
  case_bool_decide; [done | by rewrite IH].
Qed.

(** What one turn of the loop does to the summary: the file of the point
    gets an entry if it has none, and the entry of the file is changed in
    its labels and previews only. *)
Lemma add_point_shape (documents documents' : Documents) (r : Record_) :
  add_point documents r = Ok documents' ->
  exists m f,
    rec_payload r = Some m
    /\ documents' = update (file_name_of m) f
                      (if contains documents (file_name_of m) then documents
                       else (documents ++ [(file_name_of m, new_entry m)])%list)
    /\ forall d, same_file_fields d (f d).
Proof.
  unfold add_point. destruct (rec_payload r) as [m|]; [|done].
  fold (file_name_of m). fold (new_entry m).
  set (documents1 := if contains documents (file_name_of m) then documents
                     else (documents ++ [(file_name_of m, new_entry m)])%list).
  intros Hres. exists m.
  destruct (m !! "page_label") as [label|]; destruct (m !! "text") as [t|];
    try (destruct (preview t) as [p|e]; simpl in Hres; [|done]);
    injection Hres as <-.
  - eexists. rewrite update_update. split_and!; [done..|]. intros d. by repeat split.
  - eexists. split_and!; [done..|]. intros d. by repeat split.
  - eexists. split_and!; [done..|]. intros d. by repeat split.
  - exists (fun d => d). rewrite update_same. split_and!; [done..|].
    intros d. by repeat split.
Qed.

Lemma set_add_keys (documents : Documents) (key : PyVal) (d : Document) :
  map fst (if contains documents key then documents
           else (documents ++ [(key, d)])%list)
  = set_add key (map fst documents).
Proof.
  unfold set_add. destruct (contains documents key) eqn:Hc.
  - rewrite bool_decide_eq_true_2; [done|]. by apply contains_elem_of.
  - rewrite bool_decide_eq_false_2.
    + by rewrite map_app.
    + intros Hin. apply contains_elem_of in Hin. congruence.
Qed.

Lemma scan_keys (rs : list Record_) (documents documents' : Documents) :
  scan documents rs = Ok documents' ->
  map fst documents' = foldl (fun s x => set_add x s) (map fst documents) (file_names rs).
Proof.
  revert documents. induction rs as [|r rs IH]; simpl; intros documents Hscan.
  - by injection Hscan as <-.
  - destruct (add_point documents r) as [documents1|e] eqn:Hadd; simpl in Hscan; [|done].
    apply add_point_shape in Hadd as (m & f & Hm & -> & _).
    rewrite (IH _ Hscan), update_keys, set_add_keys.
    unfold file_names. simpl. by rewrite Hm.
Qed.

Lemma sort_pages_keys (set_iter : list PyVal -> list PyVal)
    (documents documents' : Documents) :
  rmap (sort_pages set_iter) documents = Ok documents' ->
  map fst documents' = map fst documents.
Proof.
  intros Hsort. apply rmap_Forall2 in Hsort.
  induction Hsort as [|[k d] kv' documents documents' Hkv Hall IH]; [done|].
  unfold sort_pages in Hkv. simpl in Hkv.
  destruct (sorted page_key key_le (set_iter (pages d))) as [l|e]; simpl in Hkv; [|done].
  injection Hkv as <-. simpl. by rewrite IH.
Qed.

(** The outcome of the body of [get_indexed_documents]: the failure of the
    round trip, or what the scan and the sort make of the scanned points. *)
Lemma fetch_documents_result (set_iter : list PyVal -> list PyVal) (w : World) :
  (fetch_documents set_iter w).1
  = match faults w with
    | Some e :: _ => Raise e
    | _ => rbind (scan [] (scanned w)) (fun documents => rmap (sort_pages set_iter) documents)
    end.
Proof.
  unfold fetch_documents, bind, lift, scroll, round_trip, serve_scroll.
  change (negb (String.eqb COLLECTION_NAME stored_collection)) with false.
  cbv iota. unfold scanned, to_record.
  destruct (faults w) as [|[e|] fs]; done.
Qed.

Lemma fetch_documents_frame (set_iter : list PyVal -> list PyVal) (w : World) :
  points (fetch_documents set_iter w).2 = points w
  /\ faults (fetch_documents set_iter w).2 = tail (faults w)
  /\ log (fetch_documents set_iter w).2 = log w
  /\ next_uuid (fetch_documents set_iter w).2 = next_uuid w.
Proof.
  unfold fetch_documents, bind, lift, scroll, round_trip, serve_scroll.
  change (negb (String.eqb COLLECTION_NAME stored_collection)) with false.
  cbv iota. destruct (faults w) as [|[e|] fs]; done.
Qed.

Lemma get_indexed_documents_result (set_iter : list PyVal -> list PyVal)
    (self : DocumentStats) (w : World) :
  (get_indexed_documents set_iter self w).1
  = match (fetch_documents set_iter w).1 with
    | Ok documents => Ok documents
    | Raise _ => Ok []
    end.
Proof.
  unfold get_indexed_documents, try_except.
  by destruct (fetch_documents set_iter w) as [[documents|e] w1].
Qed.

(** X5: the files of the summary are the file names of the scanned points,
    each once, in the order in which the points bring them; the points
    without a file name are summed up under the key [None]. *)
Theorem summary_files_in_encounter_order (set_iter : list PyVal -> list PyVal)
    (self : DocumentStats) (w w' : World) (documents : Documents) :
  fetch_documents set_iter w = (Ok documents, w') ->
  get_indexed_documents set_iter self w = (Ok documents, w')
  /\ map fst documents = encounter_order (file_names (scanned w))
  /\ NoDup (map fst documents)
  /\ (forall r m, r ∈ scanned w -> rec_payload r = Some m ->
        default PNone (m !! "file_name") ∈ map fst documents).
Proof.
  intros Hfetch.
  pose proof (fetch_documents_result set_iter w) as Hres.
  rewrite Hfetch in Hres. simpl in Hres.
  assert (Hbody : rbind (scan [] (scanned w)) (fun documents => rmap (sort_pages set_iter) documents)
                  = Ok documents).
  { destruct (faults w) as [|[e|] fs]; done. }
  destruct (scan [] (scanned w)) as [scanned_docs|e] eqn:Hscan; simpl in Hbody; [|done].
  pose proof (sort_pages_keys _ _ _ Hbody) as Hkeys.
  pose proof (scan_keys _ _ _ Hscan) as Hscanned.
  apply scan_from_empty in Hscan as (Hnodup & Hfiles & _).
  split_and!.
  - unfold get_indexed_documents, try_except. by rewrite Hfetch.
  - by rewrite Hkeys, Hscanned.
  - by rewrite Hkeys.
  - intros r m Hr Hm. rewrite Hkeys. by apply (Hfiles r m).
Qed.

End SummaryFurther.

Section SummaryOfAFile.

Import Main SummarySpec CoverageSpec Scenario Cases.

Lemma first_payload_app (fname : PyVal) (rs1 rs2 : list Record_) :
  first_payload fname (rs1 ++ rs2)
  = match first_payload fname rs1 with
    | Some m => Some m
    | None => first_payload fname rs2
    end.
Proof.
  unfold first_payload. rewrite omap_app.
  by destruct (omap _ rs1).
Qed.

Lemma first_payload_absent (fname : PyVal) (keys : list PyVal) (rs : list Record_) :
  (forall r m, r ∈ rs -> rec_payload r = Some m -> file_name_of m ∈ keys) ->
  fname ∉ keys ->
  first_payload fname rs = None.
Proof.
  intros Hkeys Hfresh. induction rs as [|r rs IH]; [done|].
  change (r :: rs) with ([r] ++ rs)%list. rewrite first_payload_app.
  rewrite IH by (intros r' m Hin; apply Hkeys; by right).
  unfold first_payload. simpl.
  destruct (rec_payload r) as [m|] eqn:Hm; [|done].
  case_bool_decide as Hf; [|done].
  exfalso. apply Hfresh. rewrite <- Hf. eapply Hkeys; [left | done].
Qed.

Lemma add_point_described (documents documents' : Documents) (rs : list Record_)
    (r : Record_) :
  summary_of documents rs ->
  described_by_first documents rs ->
  add_point documents r = Ok documents' ->
  described_by_first documents' (rs ++ [r]).
Proof.
  intros (Hnodup & Hkeys & _) Hdesc Hadd.
  apply add_point_shape in Hadd as (m & f & Hm & -> & Hf).
  intros fname d' Hin.
  assert (Hnodup1 : NoDup (map fst (if contains documents (file_name_of m) then documents
                                    else (documents ++ [(file_name_of m, new_entry m)])%list))).
  { rewrite set_add_keys. unfold set_add. case_bool_decide as Hk; [done|].
    apply NoDup_app. split_and!; [done | | apply NoDup_singleton].
    intros k Hk1 Hk2. apply list_elem_of_singleton in Hk2. by subst. }
  assert (Hfrom : exists d, (fname, d) ∈ (if contains documents (file_name_of m) then documents
                                          else (documents ++ [(file_name_of m, new_entry m)])%list)
                            /\ same_file_fields d d').
  { apply update_elem_of in Hin; [|done].
    destruct Hin as [[_ Hin] | [-> (d & Hin & ->)]].
    - exists d'. split; [done | by repeat split].
    - exists d. split; [done | apply Hf]. }
  destruct Hfrom as (d & Hd & Hp & Ht & Hs & Hc & Hl).
  rewrite first_payload_app.
  assert (Hold : (fname, d) ∈ documents ->
                 exists m0, match first_payload fname rs with
                            | Some m1 => Some m1
                            | None => first_payload fname [r]
                            end = Some m0 /\ file_fields_from m0 d').
  { intros Hin'. destruct (Hdesc _ _ Hin') as (m0 & Hfirst & H1 & H2 & H3 & H4 & H5).
    exists m0. rewrite Hfirst. split; [done|].
    unfold file_fields_from. by rewrite Hp, Ht, Hs, Hc, Hl. }
  destruct (contains documents (file_name_of m)) eqn:Hcontains; [by apply Hold|].
  apply elem_of_app in Hd as [Hd | Hd]; [by apply Hold|].
  apply list_elem_of_singleton in Hd as [= -> ->].
  exists m. split.
  - rewrite (first_payload_absent (file_name_of m) (map fst documents) rs Hkeys).
    + unfold first_payload. simpl. rewrite Hm. by rewrite bool_decide_eq_true_2.
    + intros Hk. apply contains_elem_of in Hk. congruence.
  - unfold file_fields_from. by rewrite Hp, Ht, Hs, Hc, Hl.
Qed.

Lemma scan_described (rest : list Record_) (documents documents' : Documents)
    (rs : list Record_) :
  summary_of documents rs ->
  described_by_first documents rs ->
  scan documents rest = Ok documents' ->
  described_by_first documents' (rs ++ rest).
Proof.
  revert documents rs. induction rest as [|r rest IH]; simpl;
    intros documents rs Hsum Hdesc Hscan.
  - injection Hscan as <-. by rewrite app_nil_r.
  - destruct (add_point documents r) as [documents1|e] eqn:Hadd; simpl in Hscan; [|done].
    replace (rs ++ r :: rest)%list with ((rs ++ [r]) ++ rest)%list
      by (by rewrite <- app_assoc).
    eapply IH; [| |done].
    + by eapply add_point_summary.
    + by eapply add_point_described.
Qed.

Lemma sort_pages_fields (set_iter : list PyVal -> list PyVal)
    (documents documents' : Documents) (fname : PyVal) (doc : Document) :
  rmap (sort_pages set_iter) documents = Ok documents' ->
  (fname, doc) ∈ documents' ->
  exists d, (fname, d) ∈ documents /\ same_file_fields d doc.
Proof.
  intros Hsort Hin. apply rmap_Forall2 in Hsort.
  induction Hsort as [|[k d] kv' documents documents' Hkv Hall IH].
  - by apply elem_of_nil in Hin.
  - apply elem_of_cons in Hin as [Heq | Hin].
    + subst kv'. unfold sort_pages in Hkv. simpl in Hkv.
      destruct (sorted page_key key_le (set_iter (pages d))) as [l|e];
        simpl in Hkv; [|done].
      injection Hkv as -> <-. exists d. split; [left | by repeat split].
    + destruct (IH Hin) as (d0 & Hin0 & H0). exists d0. split; [by right | done].
Qed.

(** X6: the path, type, size and dates of a file in the summary are those of
    the first scanned point of the file, with the empty string for a field
    the point does not have; what later points of the file say is not
    looked at. *)
Theorem summary_describes_first_point (set_iter : list PyVal -> list PyVal)
    (self : DocumentStats) (w w' : World) (documents : Documents)
    (fname : PyVal) (doc : Document) :
  get_indexed_documents set_iter self w = (Ok documents, w') ->
  (fname, doc) ∈ documents ->
  exists m, first_payload fname (scanned w) = Some m
            /\ default PNone (m !! "file_name") = fname
            /\ file_fields_from m doc.
Proof.
  intros Hget Hin.
  pose proof (get_indexed_documents_result set_iter self w) as Hres.
  rewrite Hget, fetch_documents_result in Hres. simpl in Hres.
  assert (Hbody : rbind (scan [] (scanned w))
                    (fun documents => rmap (sort_pages set_iter) documents) = Ok documents).
  { destruct (faults w) as [|[e|] fs];
      try (injection Hres as ->; by apply elem_of_nil in Hin);
      destruct (rbind _ _) as [docs|e]; injection Hres as ->;
      (done || by apply elem_of_nil in Hin). }
  destruct (scan [] (scanned w)) as [scanned_docs|e] eqn:Hscan; simpl in Hbody; [|done].
  destruct (sort_pages_fields _ _ _ _ _ Hbody Hin) as (d & Hd & Hp & Ht & Hs & Hc & Hl).
  assert (Hdesc : described_by_first scanned_docs (scanned w)).
  { apply (scan_described (scanned w) [] scanned_docs []); [| |done].
    - split_and!; [constructor | |];
        intros ? ? Hnil; by apply elem_of_nil in Hnil.
    - intros ? ? Hnil. by apply elem_of_nil in Hnil. }
  destruct (Hdesc _ _ Hd) as (m & Hfirst & H1 & H2 & H3 & H4 & H5).
  exists m. split_and!; [done | |].
  - unfold first_payload in Hfirst.
    apply head_Some_elem_of, list_elem_of_omap in Hfirst as (r & _ & Hr).
    destruct (rec_payload r) as [m'|]; [|done].
    case_bool_decide as Hname; [|done]. by injection Hr as ->.
  - unfold file_fields_from. by rewrite Hp, Ht, Hs, Hc, Hl.
Qed.

End SummaryOfAFile.

Section SummaryEdges.

Import Main SummarySpec CoverageSpec Scenario Cases.

Variable set_iter : list PyVal -> list PyVal.

Lemma encounter_order_elem_of (x : PyVal) (l : list PyVal) :
  x ∈ encounter_order l <-> x ∈ l.
Proof.
  induction l as [|y l IH] using rev_ind; [done|].
  rewrite encounter_order_snoc. unfold set_add. case_bool_decide as Hy.
  - rewrite elem_of_app, list_elem_of_singleton, IH. split; [tauto|].
    intros [? | ->]; [done | by apply IH].
  - by rewrite !elem_of_app, IH.
Qed.

Lemma rmap_Ok_elem_of {A B : Type} (f : A -> Result B) (l : list A) (l' : list B) (x : A) :
  rmap f l = Ok l' -> x ∈ l -> exists y, f x = Ok y.
Proof.
  intros Hmap Hin. apply rmap_Forall2 in Hmap.
  apply list_elem_of_lookup_1 in Hin as [i Hi].
  destruct (Forall2_lookup_l _ _ _ _ _ Hmap Hi) as (y & _ & Hy). eauto.
Qed.

Lemma sorted_keys_defined (l l' : list PyVal) (x : PyVal) :
  sorted page_key key_le l = Ok l' -> x ∈ l -> exists k, page_key x = Ok k.
Proof.
  unfold sorted. destruct (rmap _ l) as [dl|e] eqn:Hdl; simpl; [|done].
  intros _ Hin. destruct (rmap_Ok_elem_of _ _ _ _ Hdl Hin) as [kx Hkx].
  destruct (page_key x) as [k|e]; [eauto | done].
Qed.

(** X7: one page label that has no sort key empties the whole summary. When
    a scanned point of any file has a page label that is not a string, or a
    string of digits that [int] refuses, the sort of the labels raises and
    [get_indexed_documents] returns the empty mapping: no file is listed. *)
Theorem bad_page_label_empties_summary (self : DocumentStats) (w : World)
    (r : Record_) (m : Payload) (label : PyVal) (e : Exn) :
  iterates_sets set_iter ->
  r ∈ scanned w ->
  rec_payload r = Some m ->
  m !! "page_label" = Some label ->
  page_key label = Raise e ->
  (get_indexed_documents set_iter self w).1 = Ok [].
Proof.
  intros Hiter Hr Hm Hlabel Hkey.
  rewrite get_indexed_documents_result, fetch_documents_result.
  assert (Hbody : forall documents,
    rbind (scan [] (scanned w)) (fun documents => rmap (sort_pages set_iter) documents)
    <> Ok documents).
  { intros documents Hbody.
    destruct (scan [] (scanned w)) as [scanned_docs|e'] eqn:Hscan; simpl in Hbody; [|done].
    apply scan_from_empty in Hscan as (_ & Hfiles & Hdocs).
    pose proof (Hfiles r m Hr Hm) as Hfile.
    apply list_elem_of_fmap in Hfile as ([k d] & Hk & Hd). simpl in Hk. subst k.
    destruct (Hdocs _ _ Hd) as [Hpages _].
    destruct (rmap_Ok_elem_of _ _ _ _ Hbody Hd) as [kv' Hkv'].
    unfold sort_pages in Hkv'. simpl in Hkv'.
    destruct (sorted page_key key_le (set_iter (pages d))) as [l|e'] eqn:Hsorted;
      simpl in Hkv'; [|done].
    destruct (sorted_keys_defined _ _ label Hsorted) as [k Hk]; [|congruence].
    rewrite (Hiter (pages d)).
    - rewrite Hpages. apply encounter_order_elem_of, list_elem_of_omap.
      exists r. split; [done|]. rewrite Hm. by rewrite bool_decide_eq_true_2.
    - rewrite Hpages. apply encounter_order_NoDup. }
  destruct (faults w) as [|[e'|] fs]; try done;
    destruct (rbind _ _) as [documents|e'] eqn:Hres; try done;
    by destruct (Hbody documents).
Qed.

(** X8: the summary is built from the first 10000 points only: the points
    of the collection beyond them change nothing in what
    [get_indexed_documents] returns. *)
Theorem summary_reads_first_10000_points (self : DocumentStats) (w : World) :
  (get_indexed_documents set_iter self w).1
  = (get_indexed_documents set_iter self (first_points 10000 w)).1.
Proof.
  rewrite !get_indexed_documents_result, !fetch_documents_result.
  unfold first_points, scanned. simpl. by rewrite take_idemp.
Qed.

(** X9: [get_indexed_documents] never raises and never writes to the store.
    It returns a mapping in every case; the points are as before, the store
    has been contacted once, and the log has the lines it had and at most
    one more. *)
Theorem get_indexed_documents_never_raises (self : DocumentStats) (w : World) :
  let r := get_indexed_documents set_iter self w in
  (exists documents, r.1 = Ok documents)
  /\ points r.2 = points w
  /\ faults r.2 = tail (faults w)
  /\ next_uuid r.2 = next_uuid w
  /\ (log r.2 = log w \/ exists line, log r.2 = (log w ++ [line])%list).
Proof.
  pose proof (fetch_documents_frame set_iter w) as (Hp & Hf & Hl & Hu).
  unfold get_indexed_documents, try_except, bind, logger_error, ret. simpl.
  destruct (fetch_documents set_iter w) as [[documents|e] w1]; simpl in *.
  - split_and!; eauto.
  - rewrite Hp, Hf, Hl, Hu. split_and!; eauto.
Qed.

End SummaryEdges.

(** ** The two POST endpoints *)

Section EndpointsFurther.

Import MainFastapi Scenario Cases.

Variable indexing : IndexingModule.
Variable write_file :
  list (string * string) -> string -> string -> Result (list (string * string)).

Lemma save_files_accepts (files : list UploadFile) (temp_dir temp_dir' : list (string * string)) :
  save_files write_file temp_dir files = Ok temp_dir' ->
  Forall (fun f => exists name, filename f = Some name
                                /\ endswith (lower name) ".pdf" = true) files.
Proof.
  revert temp_dir. induction files as [|f rest IH]; simpl; intros temp_dir Hsave.
  - constructor.
  - destruct (filename f) as [name|] eqn:Hname; [|done].
    destruct (endswith (lower name) ".pdf") eqn:Hpdf; simpl in Hsave; [|done].
    destruct (write_file temp_dir name (file f)) as [temp_dir1|e]; simpl in Hsave; [|done].
    constructor; [eauto | by eapply IH].
Qed.

(** X10: [POST /index/] answers with status 200 or with status 500, and
    with no other. It answers 200 only when every uploaded file has a name
    that ends in [.pdf] in small or capital letters, the files could be
    saved, the processing gave at least one chunk and no error, and the
    indexer returned true; the body then counts the chunks. *)
Theorem index_documents_outcomes (files : list UploadFile) (w : World) :
  let r := index_documents indexing write_file files w in
  (status_of r.1 = 200%Z \/ status_of r.1 = 500%Z)
  /\ (forall response, r.1 = Ok response ->
        Forall (fun f => exists name, filename f = Some name
                                      /\ endswith (lower name) ".pdf" = true) files
        /\ exists temp_dir nodes error w1 w2,
             save_files write_file [] files = Ok temp_dir
             /\ process_documents indexing temp_dir w = (Ok (nodes, error), w1)
             /\ truthy error = false
             /\ (0 < length nodes)%nat
             /\ (exists sample, first_text nodes = Ok sample
                                /\ setup_collection indexing sample w1 = (Ok tt, w2))
             /\ (indexer_index_documents indexing nodes w2).1 = Ok true
             /\ response = mkProcessingResponse true
                             "Documents processed and indexed successfully"
                             (Some (length nodes))).
Proof.
  unfold index_documents, try_except, bind, lift, raise. simpl.
  destruct (save_files write_file [] files) as [temp_dir|e] eqn:Hsave;
    [|split; [by right | done]].
  destruct (process_documents indexing temp_dir w) as [[[nodes error]|e] w1] eqn:Hproc;
    [|split; [by right | done]].
  simpl. destruct (truthy error) eqn:Herr; [split; [by right | done]|].
  destruct nodes as [|node nodes]; simpl; [split; [by right | done]|].
  destruct (setup_collection indexing (Indexing.node_text node) w1) as [[[]|e] w2] eqn:Hsetup;
    [|split; [by right | done]].
  destruct (indexer_index_documents indexing (node :: nodes) w2) as [[ok|e] w3] eqn:Hindex;
    [|split; [by right | done]].
  destruct ok; simpl; [|split; [by right | done]].
  split; [by left|]. intros response [= <-].
  split; [by eapply save_files_accepts|].
  exists temp_dir, (node :: nodes), error, w1, w2.
  rewrite Hindex. split_and!; try done; [simpl; lia|].
  exists (Indexing.node_text node). by split.
Qed.

Variable dense_sim : DenseVector -> DenseVector -> Q.
Variable sparse_sim : SparseVector -> SparseVector -> Q.
Variable rrf_k : nat.



End EndpointsFurther.

(** ** The size of a file and the page of results *)

Section Display.

Import Main CoverageSpec.

Lemma string_app_cons (x : Ascii.ascii) (a b : string) :
  String x a +:+ b = String x (a +:+ b).
Proof. reflexivity. Qed.

Lemma string_app_assoc (a b c : string) : (a +:+ b) +:+ c = a +:+ (b +:+ c).
Proof.
  induction a as [|x a IH]; [reflexivity|].
  by rewrite !string_app_cons, IH.
Qed.

Lemma format_2f_integer (n : Z) :
  (0 <= n)%Z -> format_2f (inject_Z n) = str_of_Z n +:+ ".00".
Proof.
  intros Hn. unfold format_2f, inject_Z. simpl Qnum. simpl Qden.
  rewrite Z.div_1_r, Z.mod_1_r. change (2 * 0 <? 1)%Z with true. cbv iota.
  rewrite (proj2 (Z.ltb_ge n 0) Hn).
  rewrite Z.abs_eq by lia.
  rewrite Z.div_mul by lia. rewrite Z.mod_mul by lia.
  replace (str_of_N (Z.to_N n)) with (str_of_Z n) by (by destruct n).
  change (two_digits (Z.to_N 0)) with "00". reflexivity.
Qed.

Lemma below_1024 (x : Q) : negb (Qle_bool 1024 x) = true <-> (x < 1024)%Q.
Proof.
  rewrite negb_true_iff. split.
  - intros H. apply Qnot_le_lt. intros Hle. apply Qle_bool_iff in Hle. congruence.
  - intros H. destruct (Qle_bool 1024 x) eqn:Hle; [|done].
    apply Qle_bool_iff in Hle. by apply Qlt_not_le in H.
Qed.

Lemma not_below_1024 (x : Q) : negb (Qle_bool 1024 x) = false <-> (1024 <= x)%Q.
Proof. rewrite negb_false_iff. apply Qle_bool_iff. Qed.

(** X12: [format_file_size] of a size in bytes, from 0 to below 2^53, prints
    it in the first unit in which it is below 1024, and in TB from 1024^4
    bytes on, with two decimals: below 1024 bytes the number of bytes
    followed by [.00 B], then the size divided by 1024 once for KB, twice
    for MB, three times for GB and four times for TB. *)
Theorem format_file_size_units (n : Z) :
  (0 <= n < 2 ^ 53)%Z ->
  ((n < 1024)%Z -> format_file_size n = str_of_Z n +:+ ".00 B")
  /\ ((1024 <= n < 1024 ^ 2)%Z ->
      format_file_size n = format_2f (inject_Z n / 1024) +:+ " KB")
  /\ ((1024 ^ 2 <= n < 1024 ^ 3)%Z ->
      format_file_size n = format_2f (inject_Z n / 1024 / 1024) +:+ " MB")
  /\ ((1024 ^ 3 <= n < 1024 ^ 4)%Z ->
      format_file_size n = format_2f (inject_Z n / 1024 / 1024 / 1024) +:+ " GB")
  /\ ((1024 ^ 4 <= n)%Z ->
      format_file_size n = format_2f (inject_Z n / 1024 / 1024 / 1024 / 1024) +:+ " TB").
Proof.
  intros [Hn _].
  assert (H0 : forall b : bool, (n < 1024)%Z -> b = true ->
                 negb (Qle_bool 1024 (inject_Z n)) = b).
  { intros b H ->. apply below_1024. unfold Qlt, inject_Z. simpl. lia. }
  assert (H0' : (1024 <= n)%Z -> negb (Qle_bool 1024 (inject_Z n)) = false).
  { intros H. apply not_below_1024. unfold Qle, inject_Z. simpl. lia. }
  assert (H1 : (n < 1024 ^ 2)%Z -> negb (Qle_bool 1024 (inject_Z n / 1024)) = true).
  { intros H. apply below_1024. unfold Qlt, Qdiv, Qmult, Qinv, inject_Z. simpl. lia. }
  assert (H1' : (1024 ^ 2 <= n)%Z -> negb (Qle_bool 1024 (inject_Z n / 1024)) = false).
  { intros H. apply not_below_1024. unfold Qle, Qdiv, Qmult, Qinv, inject_Z. simpl. lia. }
  assert (H2 : (n < 1024 ^ 3)%Z ->
               negb (Qle_bool 1024 (inject_Z n / 1024 / 1024)) = true).
  { intros H. apply below_1024. unfold Qlt, Qdiv, Qmult, Qinv, inject_Z. simpl. lia. }
  assert (H2' : (1024 ^ 3 <= n)%Z ->
                negb (Qle_bool 1024 (inject_Z n / 1024 / 1024)) = false).
  { intros H. apply not_below_1024. unfold Qle, Qdiv, Qmult, Qinv, inject_Z. simpl. lia. }
  assert (H3 : (n < 1024 ^ 4)%Z ->
               negb (Qle_bool 1024 (inject_Z n / 1024 / 1024 / 1024)) = true).
  { intros H. apply below_1024. unfold Qlt, Qdiv, Qmult, Qinv, inject_Z. simpl. lia. }
  assert (H3' : (1024 ^ 4 <= n)%Z ->
                negb (Qle_bool 1024 (inject_Z n / 1024 / 1024 / 1024)) = false).
  { intros H. apply not_below_1024. unfold Qle, Qdiv, Qmult, Qinv, inject_Z. simpl. lia. }
  unfold format_file_size, format_units.
  split_and!.
  - intros H. rewrite (H0 true H eq_refl), format_2f_integer by done.
    by rewrite string_app_assoc.
  - intros [Ha Hb]. by rewrite (H0' Ha), (H1 Hb).
  - intros [Ha Hb]. rewrite H0', H1', (H2 Hb); [done | lia..].
  - intros [Ha Hb]. rewrite H0', H1', H2', (H3 Hb); [done | lia..].
  - intros Ha. rewrite H0', H1', H2', H3'; [done | lia..].
Qed.

Lemma int_digits_app (a : N) (s1 s2 : string) :
  int_digits a (s1 +:+ s2) = int_digits (int_digits a s1) s2.
Proof.
  revert a. induction s1 as [|c s1 IH]; intros a; [reflexivity|].
  rewrite string_app_cons. simpl. by rewrite IH.
Qed.

Lemma digit_char_value (r : N) :
  (r < 10)%N -> (Ascii.N_of_ascii (Ascii.ascii_of_N (48 + r)) - 48 = r)%N.
Proof. intros Hr. rewrite Ascii.N_ascii_embedding; lia. Qed.

Lemma digits_of_pos_fuel_value (fuel : nat) (n : N) (acc : string) :
  (n < 2 ^ N.of_nat fuel)%N ->
  exists ds k, digits_of_pos_fuel fuel n acc = ds +:+ acc
               /\ forall a, int_digits a ds = (a * 10 ^ k + n)%N.
Proof.
  revert n acc. induction fuel as [|fuel IH]; intros n acc Hn.
  - simpl in Hn. exists "", 0%N. split; [|intros a]; simpl; [|lia].
    replace n with 0%N by lia. done.
  - simpl digits_of_pos_fuel.
    pose proof (N.mod_lt n 10 ltac:(lia)) as Hr.
    pose proof (N.div_mod n 10 ltac:(lia)) as Hdiv.
    destruct (N.eqb_spec (n / 10) 0) as [Hq | Hq].
    + exists (String (Ascii.ascii_of_N (48 + n mod 10)) ""), 1%N.
      split; [done|]. intros a. simpl. rewrite digit_char_value by done. lia.
    + destruct (IH (n / 10)%N (String (Ascii.ascii_of_N (48 + n mod 10)) acc))
        as (ds & k & Hds & Hval).
      { apply N.Div0.div_lt_upper_bound.
        rewrite Nat2N.inj_succ, N.pow_succ_r' in Hn. lia. }
      exists (ds +:+ String (Ascii.ascii_of_N (48 + n mod 10)) ""), (k + 1)%N.
      split.
      * rewrite Hds. by rewrite string_app_assoc.
      * intros a. rewrite int_digits_app, Hval. simpl.
        rewrite digit_char_value by done. rewrite N.pow_add_r. lia.
Qed.

(** [int(str(n))] is [n]. *)
Lemma int_digits_str_of_N (n : N) : int_digits 0%N (str_of_N n) = n.
Proof.
  unfold str_of_N.
  destruct (digits_of_pos_fuel_value (S (N.to_nat (N.log2 n))) n "") as (ds & k & Hds & Hval).
  - rewrite Nat2N.inj_succ, N2Nat.id.
    destruct (N.eq_dec n 0%N) as [-> | Hn]; [done|].
    apply N.log2_spec. lia.
  - rewrite Hds, int_digits_app, Hval. simpl. lia.
Qed.

Lemma result_key_inj (i j : nat) :
  "result_" +:+ str_of_N (N.of_nat i) = "result_" +:+ str_of_N (N.of_nat j) -> i = j.
Proof.
  intros H%(inj (String.append "result_")). apply (f_equal (int_digits 0%N)) in H.
  rewrite !int_digits_str_of_N in H. lia.
Qed.

Lemma display_results_from_areas (i : nat) (results : list PyVal) :
  text_areas (display_results_from i results)
  = zip results (map (fun j => "result_" +:+ str_of_N (N.of_nat j)) (seq i (length results))).
Proof.
  revert i. induction results as [|result rest IH]; intros i; [done|].
  simpl. unfold text_areas in *. simpl. by rewrite IH.
Qed.

(** X13: [display_search_results] writes the one line [No results found.] for
    an empty list; for any other list it draws one text area for each
    passage, in order, the passage number [i] under the key [result_i], and
    no two text areas have the same key. *)
Theorem display_search_results_areas (results : list PyVal) :
  (results = [] -> display_search_results results = [st_info "No results found."])
  /\ (results <> [] ->
      text_areas (display_search_results results)
      = zip results (map (fun i => "result_" +:+ str_of_N (N.of_nat i))
                       (seq 0 (length results)))
      /\ map fst (text_areas (display_search_results results)) = results
      /\ NoDup (map snd (text_areas (display_search_results results)))).
Proof.
  split; [by intros ->|]. intros Hne.
  assert (Hareas : text_areas (display_search_results results)
                   = zip results (map (fun i => "result_" +:+ str_of_N (N.of_nat i))
                                    (seq 0 (length results)))).
  { destruct results as [|result rest]; [done|]. apply display_results_from_areas. }
  rewrite Hareas. split_and!; [done | |].
  - apply fst_zip. rewrite length_map, length_seq. done.
  - rewrite snd_zip by (rewrite length_map, length_seq; done).
    apply NoDup_fmap_2_strong; [|apply NoDup_seq].
    intros i j _ _. apply result_key_inj.
Qed.

End Display.

(** ** The further properties at work *)

Section FurtherInstances.

Import Main SummarySpec CoverageSpec MainFastapi Scenario Cases.

Lemma query_hybrid_search_ranked_witness :
  query_hybrid_search dot sparse_dot 2 searcher "match" None 1 two_points
  = (Ok [PStr "keyword match"; PStr "semantic match"], two_points)
  /\ run_prefetch dot sparse_dot None (points two_points)
       (mkPrefetch (NearestSparse (mkSparseVector [0%nat] [1%Q])) "sparse" 1)
     = Ok [p_keyword]
  /\ run_prefetch dot sparse_dot None (points two_points)
       (mkPrefetch (NearestDense [0%Q; 1%Q]) "dense" 1)
     = Ok [p_semantic]
  /\ exists d s sparse_ranking dense_ranking results,
       embedding_model searcher "match" = Ok d
       /\ sparse_embedding_model searcher "match" = Ok s
       /\ Forall2 (fun pf ranking =>
                     run_prefetch dot sparse_dot None (points two_points) pf = Ok ranking)
            (prefetch (hybrid_request d s None 1)) [sparse_ranking; dense_ranking]
       /\ Forall (fun point =>
                    exists p, (p ∈ sparse_ranking \/ p ∈ dense_ranking)
                              /\ p ∈ points two_points
                              /\ sp_id point = id p
                              /\ sp_payload point = payload p)
            results
       /\ Forall2 (fun point passage => getitem (sp_payload point) "text" = Ok passage)
            results [PStr "keyword match"; PStr "semantic match"]
       /\ results = take default_limit (fuse 2 [sparse_ranking; dense_ranking])
       /\ (length sparse_ranking <= 1)%nat
       /\ (length dense_ranking <= 1)%nat
       /\ StronglySorted (fun a b => Qle (sp_score b) (sp_score a)) results
       /\ Forall (fun point =>
                    sp_score point
                    = Qplus (rrf_contribution 2 (sp_id point) sparse_ranking)
                        (Qplus (rrf_contribution 2 (sp_id point) dense_ranking) 0))
            results
       /\ (length [PStr "keyword match"; PStr "semantic match"] <= default_limit)%nat
       /\ (length [PStr "keyword match"; PStr "semantic match"] <= 1 + 1)%nat.
Proof.
  assert (H : query_hybrid_search dot sparse_dot 2 searcher "match" None 1 two_points
              = (Ok [PStr "keyword match"; PStr "semantic match"], two_points))
    by (vm_compute; reflexivity).
  split; [exact H|].
  split; [vm_compute; reflexivity|].
  split; [vm_compute; reflexivity|].
  exact (query_hybrid_search_ranked dot sparse_dot 2 searcher "match" None 1
           two_points two_points _ H).
Defined.

Lemma query_hybrid_search_missing_text_witness :
  embedding_model searcher "match" = Ok [0%Q; 1%Q]
  /\ sparse_embedding_model searcher "match" = Ok (mkSparseVector [0%nat] [1%Q])
  /\ (query_points dot sparse_dot 2
        (hybrid_request [0%Q; 1%Q] (mkSparseVector [0%nat] [1%Q]) None 5)
        with_untitled).1 = Ok untitled_answer
  /\ Forall (fun point => is_Some (sp_payload point)) untitled_answer
  /\ Exists (fun point => exists m, sp_payload point = Some m /\ m !! "text" = None)
       untitled_answer
  /\ (query_hybrid_search dot sparse_dot 2 searcher "match" None 5 with_untitled).1
     = Raise (KeyError "text").
Proof.
  assert (Hd : embedding_model searcher "match" = Ok [0%Q; 1%Q]) by reflexivity.
  assert (Hs : sparse_embedding_model searcher "match"
               = Ok (mkSparseVector [0%nat] [1%Q])) by reflexivity.
  assert (Hq : (query_points dot sparse_dot 2
                  (hybrid_request [0%Q; 1%Q] (mkSparseVector [0%nat] [1%Q]) None 5)
                  with_untitled).1 = Ok untitled_answer) by (vm_compute; reflexivity).
  assert (Hall : Forall (fun point => is_Some (sp_payload point)) untitled_answer).
  { vm_compute. repeat constructor; eexists; reflexivity. }
  assert (Hex : Exists (fun point => exists m, sp_payload point = Some m
                                               /\ m !! "text" = None) untitled_answer).
  { vm_compute.
    first [ apply Exists_cons_hd; eexists; split; reflexivity
          | apply Exists_cons_tl; apply Exists_cons_hd; eexists; split; reflexivity ]. }
  split_and!; [exact Hd | exact Hs | exact Hq | exact Hall | exact Hex |].
  exact (query_hybrid_search_missing_text dot sparse_dot 2 searcher "match" None 5
           with_untitled _ _ _ Hd Hs Hq Hall Hex).
Defined.

Lemma query_hybrid_search_keeps_candidates_witness :
  (1 <= 5)%nat
  /\ NoDup (map id (points two_points))
  /\ query_hybrid_search dot sparse_dot 2 searcher "match" None 1 two_points
     = (Ok [PStr "keyword match"; PStr "semantic match"], two_points)
  /\ exists d s,
       embedding_model searcher "match" = Ok d
       /\ sparse_embedding_model searcher "match" = Ok s
       /\ forall pf ranking p,
            pf ∈ prefetch (hybrid_request d s None 1) ->
            run_prefetch dot sparse_dot None (points two_points) pf = Ok ranking ->
            p ∈ ranking ->
            exists passage, getitem (payload p) "text" = Ok passage
                            /\ passage ∈ [PStr "keyword match"; PStr "semantic match"].
Proof.
  assert (Hlimit : (1 <= 5)%nat) by lia.
  assert (Hnodup : NoDup (map id (points two_points))).
  { simpl. apply NoDup_cons. split; [|apply NoDup_singleton].
    intros Hin%list_elem_of_singleton. discriminate Hin. }
  assert (H : query_hybrid_search dot sparse_dot 2 searcher "match" None 1 two_points
              = (Ok [PStr "keyword match"; PStr "semantic match"], two_points))
    by (vm_compute; reflexivity).
  split_and!; [exact Hlimit | exact Hnodup | exact H |].
  exact (query_hybrid_search_keeps_candidates dot sparse_dot 2 searcher "match" None 1
           two_points two_points _ Hlimit Hnodup H).
Defined.

Lemma summary_files_in_encounter_order_witness :
  fetch_documents (fun s => s) two_descriptions
  = (Ok two_descriptions_summary, two_descriptions)
  /\ map fst two_descriptions_summary
     = encounter_order (file_names (scanned two_descriptions)).
Proof.
  assert (H : fetch_documents (fun s => s) two_descriptions
              = (Ok two_descriptions_summary, two_descriptions))
    by (vm_compute; reflexivity).
  split; [exact H|].
  exact (proj1 (proj2 (summary_files_in_encounter_order (fun s => s) stats
                         two_descriptions two_descriptions _ H))).
Defined.

Lemma summary_describes_first_point_witness :
  get_indexed_documents (fun s => s) stats two_descriptions
  = (Ok two_descriptions_summary, two_descriptions)
  /\ exists m, first_payload (PStr "A.pdf") (scanned two_descriptions) = Some m
               /\ default PNone (m !! "file_name") = PStr "A.pdf"
               /\ file_fields_from m
                    (mkDocument [PStr "1"; PStr "2"] (PStr "/tmp/a/A.pdf") (PStr "")
                       (PStr "2048") (PStr "") (PStr "") []).
Proof.
  assert (H : get_indexed_documents (fun s => s) stats two_descriptions
              = (Ok two_descriptions_summary, two_descriptions))
    by (vm_compute; reflexivity).
  split; [exact H|].
  exact (summary_describes_first_point (fun s => s) stats two_descriptions
           two_descriptions _ (PStr "A.pdf") _ H (list_elem_of_here _ _)).
Defined.

Lemma bad_page_label_empties_summary_witness :
  iterates_sets (fun s => s)
  /\ mkRecord 5 (Some numbered_payload) ∈ scanned with_number_label
  /\ numbered_payload !! "page_label" = Some (PInt 3)
  /\ page_key (PInt 3) = Raise (AttributeError "'int' object has no attribute 'isdigit'")
  /\ (get_indexed_documents (fun s => s) stats with_number_label).1 = Ok [].
Proof.
  assert (Hiter : iterates_sets (fun s => s)) by (intros s _; reflexivity).
  assert (Hr : mkRecord 5 (Some numbered_payload) ∈ scanned with_number_label).
  { unfold scanned, with_number_label. simpl. right. left. }
  assert (Hlabel : numbered_payload !! "page_label" = Some (PInt 3)) by reflexivity.
  assert (Hkey : page_key (PInt 3)
                 = Raise (AttributeError "'int' object has no attribute 'isdigit'"))
    by reflexivity.
  split_and!; [exact Hiter | exact Hr | exact Hlabel | exact Hkey |].
  exact (bad_page_label_empties_summary (fun s => s) stats with_number_label
           (mkRecord 5 (Some numbered_payload)) numbered_payload (PInt 3) _
           Hiter Hr eq_refl Hlabel Hkey).
Defined.

Lemma index_documents_outcomes_witness :
  (index_documents indexing_module write_file capital_upload two_points).1
  = Ok (mkProcessingResponse true "Documents processed and indexed successfully" (Some 1%nat))
  /\ Forall (fun f => exists name, filename f = Some name
                                   /\ endswith (lower name) ".pdf" = true) capital_upload.
Proof.
  assert (H : (index_documents indexing_module write_file capital_upload two_points).1
              = Ok (mkProcessingResponse true
                      "Documents processed and indexed successfully" (Some 1%nat)))
    by (vm_compute; reflexivity).
  split; [exact H|].
  exact (proj1 (proj2 (index_documents_outcomes indexing_module write_file capital_upload
                         two_points) _ H)).
Defined.


Lemma format_file_size_units_witness :
  (0 <= 1536 < 2 ^ 53)%Z
  /\ (1024 <= 1536 < 1024 ^ 2)%Z
  /\ format_file_size 1536 = format_2f (inject_Z 1536 / 1024) +:+ " KB".
Proof.
  assert (H : (0 <= 1536 < 2 ^ 53)%Z) by (split; [lia | reflexivity]).
  assert (Hkb : (1024 <= 1536 < 1024 ^ 2)%Z) by (split; [lia | reflexivity]).
  split; [exact H|]. split; [exact Hkb|].
  exact (proj1 (proj2 (format_file_size_units 1536 H)) Hkb).
Defined.

(** Sizes around the units: 1152 bytes are 1.125 KB, printed to the even
    neighbour; one byte less than a MB prints as 1024.00 KB. *)
Example format_file_size_samples :
  map format_file_size [0; 1023; 1024; 1152; 1536; 1048575; 1048576; 5497558138880]%Z
  = ["0.00 B"; "1023.00 B"; "1.00 KB"; "1.12 KB"; "1.50 KB"; "1024.00 KB"; "1.00 MB";
     "5.00 TB"].
Proof. vm_compute. reflexivity. Qed.

Lemma display_search_results_areas_witness :
  [PStr "a"; PStr "b"] <> []
  /\ text_areas (display_search_results [PStr "a"; PStr "b"])
     = [(PStr "a", "result_0"); (PStr "b", "result_1")].
Proof.
  assert (H : [PStr "a"; PStr "b"] <> []) by discriminate.
  split; [exact H|].
  exact (proj1 (proj2 (display_search_results_areas [PStr "a"; PStr "b"]) H)).
Defined.

End FurtherInstances.

(** ** Edges of the summary, of the index endpoint and of the search page *)

Section Edges.

Import Main SummarySpec CoverageSpec MainFastapi Scenario Cases.



Variable indexing : IndexingModule.
Variable write_file :
  list (string * string) -> string -> string -> Result (list (string * string)).

(** X15: when the processing of the uploaded files gives no chunk and no
    error, [POST /index/] answers with status 500 and the message of the
    [IndexError] of [nodes[0]]; the collection is not set up and nothing is
    indexed: the state is the one the processing left. *)
Theorem index_documents_without_chunks (files : list UploadFile) (w w1 : World)
    (temp_dir : list (string * string)) (error : option string) :
  save_files write_file [] files = Ok temp_dir ->
  process_documents indexing temp_dir w = (Ok ([], error), w1) ->
  truthy error = false ->
  index_documents indexing write_file files w
  = (Raise (HTTPException 500 "list index out of range"), w1).
Proof.
  intros Hsave Hproc Herr.
  unfold index_documents, try_except, bind, lift, raise.
  rewrite Hsave, Hproc. simpl. by rewrite Herr.
Qed.

Variable dense_sim : DenseVector -> DenseVector -> Q.
Variable sparse_sim : SparseVector -> SparseVector -> Q.
Variable rrf_k : nat.

(** X16: on the search page a failed search looks like a search without a
    match. When the hybrid search raises, [search_documents] hands the empty
    list to [display_search_results], which writes [No results found.] and
    draws no text area; the exception reaches the log only. *)
Theorem failed_search_shows_no_results (self : DocumentStats) (query_text : string)
    (limit : nat) (w : World) (e : Exn) :
  (query_hybrid_search dense_sim sparse_sim rrf_k (hybrid_search self) query_text None
     limit w).1 = Raise e ->
  exists results,
    (Main.search_documents dense_sim sparse_sim rrf_k self query_text limit w).1 = Ok results
    /\ display_search_results results = [st_info "No results found."]
    /\ text_areas (display_search_results results) = [].
Proof.
  intros Hsearch. exists []. unfold Main.search_documents, try_except.
  destruct (query_hybrid_search _ _ _ _ _ _ _ w) as [[docs|e'] w']; simpl in *; done.
Qed.

End Edges.

Section EdgeInstances.

Import Main SummarySpec CoverageSpec MainFastapi Scenario Cases.


Lemma index_documents_without_chunks_witness :
  save_files write_file [] capital_upload = Ok [("REPORT.PDF", "%PDF")]
  /\ process_documents no_chunks [("REPORT.PDF", "%PDF")] two_points
     = (Ok ([], None), two_points)
  /\ truthy None = false
  /\ index_documents no_chunks write_file capital_upload two_points
     = (Raise (HTTPException 500 "list index out of range"), two_points).
Proof.
  assert (Hsave : save_files write_file [] capital_upload = Ok [("REPORT.PDF", "%PDF")])
    by reflexivity.
  assert (Hproc : process_documents no_chunks [("REPORT.PDF", "%PDF")] two_points
                  = (Ok ([], None), two_points)) by reflexivity.
  assert (Herr : truthy None = false) by reflexivity.
  split; [exact Hsave|]. split; [exact Hproc|]. split; [exact Herr|].
  exact (index_documents_without_chunks no_chunks write_file capital_upload two_points
           two_points _ None Hsave Hproc Herr).
Defined.

Lemma failed_search_shows_no_results_witness :
  (query_hybrid_search dot sparse_dot 2 (hybrid_search stats) "match" None 5
     store_down_once).1 = Raise (StoreError "timed out")
  /\ exists results,
       (Main.search_documents dot sparse_dot 2 stats "match" 5 store_down_once).1
       = Ok results
       /\ display_search_results results = [st_info "No results found."]
       /\ text_areas (display_search_results results) = [].
Proof.
  assert (H : (query_hybrid_search dot sparse_dot 2 (hybrid_search stats) "match" None 5
                 store_down_once).1 = Raise (StoreError "timed out")) by reflexivity.
  split; [exact H|].
  exact (failed_search_shows_no_results dot sparse_dot 2 stats "match" 5 store_down_once
           _ H).
Defined.

End EdgeInstances.
